(** * AutoTest: a YAML-driven browser test runner

    A shallow embedding of the script parser and validator
    ([parser/script_parser.py]), the action dispatcher
    ([engine/actions.py]), the execution engine
    ([engine/browser_engine.py]) and the command line driver
    ([cli/main.py]), followed by the properties the specification
    states about them.

    The browser driver (Playwright), the YAML loader, the file system
    and the clock are external collaborators: every use the program
    makes of them is an event of an interaction tree, answered by an
    environment the theorems quantify over. Python's dynamic typing is
    kept: script fields and step parameters are values of [pyval], and
    the exceptions the interpreter raises on ill-fitting values are part
    of the programs. Console output ([print]) is not part of the
    model. *)

From stdpp Require Import base option list gmap strings fin_maps pretty.

Set Warnings "-register-all".
Open Scope string_scope.
Open Scope list_scope.

(** ** Python values

    The values [yaml.safe_load] hands to the program: null, booleans,
    integers, strings, sequences and mappings with string keys. Floats
    and timestamps do not occur in the scripts and are left out. *)

Inductive pyval : Type :=
| VNone
| VBool (b : bool)
| VInt (z : Z)
| VStr (s : string)
| VList (l : list pyval)
| VDict (d : gmap string pyval).

(** Truth value testing ([if x], [not x]). *)
Definition truthy (v : pyval) : bool :=
  match v with
  | VNone => false
  | VBool b => b
  | VInt z => negb (z =? 0)%Z
  | VStr s => negb (String.eqb s "")
  | VList l => match l with [] => false | _ => true end
  | VDict d => negb (bool_decide (d = ∅))
  end.

Definition bool_to_Z (b : bool) : Z := if b then 1%Z else 0%Z.

(** [a == b]. Booleans compare as the integers 0 and 1; containers
    compare element-wise. *)
Fixpoint py_eq (a b : pyval) {struct a} : bool :=
  match a, b with
  | VNone, VNone => true
  | VBool x, VBool y => Bool.eqb x y
  | VBool x, VInt y => (bool_to_Z x =? y)%Z
  | VInt x, VBool y => (x =? bool_to_Z y)%Z
  | VInt x, VInt y => (x =? y)%Z
  | VStr x, VStr y => String.eqb x y
  | VList xs, VList ys =>
      (fix go (xs ys : list pyval) {struct xs} : bool :=
         match xs, ys with
         | [], [] => true
         | x :: xs', y :: ys' => py_eq x y && go xs' ys'
         | _, _ => false
         end) xs ys
  | VDict d1, VDict d2 =>
      bool_decide (size d1 = size d2) &&
      map_fold (fun k v acc =>
                  acc && match d2 !! k with
                         | Some v' => py_eq v v'
                         | None => false
                         end) true d1
  | _, _ => false
  end.

(** Nesting measure, used to bound re-entrant dispatch. *)
Fixpoint pysize (v : pyval) : nat :=
  match v with
  | VList l => S (foldr (fun x acc => pysize x + acc) 0 l)
  | VDict d => S (map_fold (fun _ x acc => pysize x + acc) 0 d)
  | _ => 1
  end.

(** [type(v).__name__], as it appears in interpreter messages. *)
Definition type_name (v : pyval) : string :=
  match v with
  | VNone => "NoneType"
  | VBool _ => "bool"
  | VInt _ => "int"
  | VStr _ => "str"
  | VList _ => "list"
  | VDict _ => "dict"
  end.

(** ** Messages

    Messages are built with f-strings. A message is kept as the list of
    its fragments, literal text and interpolated values, so that no
    rendering of nested values has to be reproduced; the text Python
    shows is the concatenation of the fragments' renderings. *)

Inductive frag : Type :=
| Lit (s : string)
| Fmt (v : pyval).   (* [{v}], that is [str(v)] *)

Definition msg : Type := list frag.

Definition text (s : string) : msg := [Lit s].

(** Whether a fragment renders to the empty string: only the empty
    literal and the empty string value do. *)
Definition frag_empty (f : frag) : bool :=
  match f with
  | Lit s | Fmt (VStr s) => String.eqb s ""
  | Fmt _ => false
  end.

(** Truth value of the rendered message. *)
Definition msg_truthy (m : msg) : bool := negb (forallb frag_empty m).

(** ** Exceptions *)

Inductive exn_class : Type :=
| ValueError
| TypeError
| AttributeError
| KeyError
| FileNotFoundError
| AssertionError
| RecursionError
| OtherError          (* any other subclass of [Exception] *)
| KeyboardInterrupt
| OtherBaseException. (* [SystemExit], [CancelledError], ... *)

(** An exception with the message [str(e)] yields. *)
Record exn : Type := Exn { exn_cls : exn_class; exn_msg : msg }.

(** Whether [except Exception] catches it. *)
Definition is_Exception (e : exn) : bool :=
  match exn_cls e with
  | KeyboardInterrupt | OtherBaseException => false
  | _ => true
  end.

(** ** External events *)

Definition handle : Type := N.

Inductive page_method : Type :=
| Goto | Click | Fill | WaitForSelector | ExpectToContainText
| ExpectToBeVisible | SetInputFiles | Screenshot | WaitForTimeout
| SelectOption | Check_ | Uncheck | Hover | Press | Evaluate
| SetDefaultTimeout.

Inductive ext : Type :=
(* a call of method [m] on the page with positional and keyword
   arguments; for the two [expect] methods the first argument is the
   selector of the locator under test *)
| PageCall (pg : handle) (m : page_method) (args : list pyval)
           (kw : gmap string pyval)
| LocatorCount (pg : handle) (selector : pyval)
| LocatorTextContent (pg : handle) (selector : pyval)
(* pathlib *)
| PathExists (p : string)
| Expanduser (p : string)
| Absolute (p : string)
(* [path.open('r')] followed by [yaml.safe_load] *)
| SafeLoad (p : string)
(* [datetime.now()], in microseconds *)
| Now
(* session life cycle *)
| PlaywrightStart
| Launch (pw : handle) (kind : string) (headless : pyval)
| NewContext (b : handle)
| NewPage (ctx : handle)
| CloseContext (ctx : handle)
| CloseBrowser (b : handle)
| PlaywrightStop (pw : handle)
(* looking up and calling a name of the form [__x]: whether the
   Python object model answers it, and what the call does, is for the
   environment to say *)
| SpecialAttr (name : string) (params : pyval).

Definition resp (c : ext) : Type :=
  match c with
  | PageCall _ _ _ _ => pyval
  | LocatorCount _ _ => Z
  | LocatorTextContent _ _ => pyval
  | PathExists _ => bool
  | Expanduser _ => string
  | Absolute _ => string
  | SafeLoad _ => pyval
  | Now => Z
  | PlaywrightStart => handle
  | Launch _ _ _ => handle
  | NewContext _ => handle
  | NewPage _ => handle
  | CloseContext _ => unit
  | CloseBrowser _ => unit
  | PlaywrightStop _ => unit
  | SpecialAttr _ _ => unit
  end.

(** ** Programs

    A program either returns, raises, or performs an external event and
    continues with its answer: the result, or the exception the
    collaborator raised. *)

Inductive prog (A : Type) : Type :=
| Ret (a : A)
| Raise (e : exn)
| Vis (c : ext) (k : exn + resp c → prog A).

Arguments Ret {A} a.
Arguments Raise {A} e.
Arguments Vis {A} c k.

Fixpoint prog_bind {A B : Type} (f : A → prog B) (p : prog A) : prog B :=
  match p with
  | Ret a => f a
  | Raise e => Raise e
  | Vis c k => Vis c (fun r => prog_bind f (k r))
  end.

#[global] Instance prog_mret : MRet prog := @Ret.
#[global] Instance prog_mbind : MBind prog := @prog_bind.

(** Perform one event; an exception from the collaborator propagates. *)
Definition call (c : ext) : prog (resp c) :=
  Vis c (fun r => match r with inl e => Raise e | inr v => Ret v end).

(** Run a block and reify how it ended, as a [try] statement sees it. *)
Fixpoint attempt {A : Type} (p : prog A) : prog (exn + A) :=
  match p with
  | Ret a => Ret (inr a)
  | Raise e => Ret (inl e)
  | Vis c k => Vis c (fun r => attempt (k r))
  end.

Definition lift {A : Type} (r : exn + A) : prog A :=
  match r with inl e => Raise e | inr a => Ret a end.

(** ** Environments

    An environment answers every event, threading its own state (the
    browser, the disk, the clock). *)

Definition environment (W : Type) : Type :=
  ∀ c : ext, W → W * (exn + resp c).

Fixpoint run {W A : Type} (env : environment W) (p : prog A) (w : W)
  : W * (exn + A) :=
  match p with
  | Ret a => (w, inr a)
  | Raise e => (w, inl e)
  | Vis c k => let '(w', r) := env c w in run env (k r) w'
  end.

(** The events performed, in order. *)
Fixpoint trace {W A : Type} (env : environment W) (p : prog A) (w : W)
  : list ext :=
  match p with
  | Ret _ | Raise _ => []
  | Vis c k => let '(w', r) := env c w in c :: trace env (k r) w'
  end.

(** ** Argument binding errors

    The [TypeError]s the interpreter raises when a call does not fit
    the signature of the function called. *)

(** The names as the interpreter lists them: ['a'], ['a' and 'b'],
    ['a', 'b', and 'c']. *)
Fixpoint quote_list (names : list string) : msg :=
  match names with
  | [] => []
  | [a] => [Lit "and '"; Lit a; Lit "'"]
  | a :: rest => [Lit "'"; Lit a; Lit "', "] ++ quote_list rest
  end.

Definition quote_join (names : list string) : msg :=
  match names with
  | [] => []
  | [a] => [Lit "'"; Lit a; Lit "'"]
  | [a; b] => [Lit "'"; Lit a; Lit "' and '"; Lit b; Lit "'"]
  | _ => quote_list names
  end.

Definition missing_arguments (qualname : string) (missing : list string)
  : exn :=
  Exn TypeError
    ([Lit qualname; Lit "() missing ";
      Fmt (VInt (Z.of_nat (length missing)));
      Lit " required positional argument";
      Lit (match missing with [_] => "" | _ => "s" end); Lit ": "]
     ++ quote_join missing).

Definition multiple_values (qualname arg : string) : exn :=
  Exn TypeError
    [Lit qualname; Lit "() got multiple values for argument '"; Lit arg;
     Lit "'"].

(** ** The script model and its parser ([parser/script_parser.py]) *)

Module TestStep.

Record t : Type := mk {
  action : pyval;
  params : gmap string pyval;
}.

End TestStep.

(** [d.get(k, default)] *)
Definition dict_get (d : gmap string pyval) (k : string) (default : pyval)
  : pyval :=
  match d !! k with Some v => v | None => default end.

(** What [for x in v] ranges over. A mapping yields its keys and a
    string its characters. *)
Definition py_iter (v : pyval) : exn + list pyval :=
  match v with
  | VList l => inr l
  | VDict d => inr (VStr <$> (map_to_list d).*1)
  | VStr s =>
      inr ((fun c => VStr (String c ""))
             <$> Stdlib.Strings.String.list_ascii_of_string s)
  | _ => inl (Exn TypeError
                [Lit "'"; Lit (type_name v); Lit "' object is not iterable"])
  end.

(** [TestStep(action=step.pop('action'), **step)] *)
Definition make_step (step : pyval) : exn + TestStep.t :=
  match step with
  | VDict d =>
      match d !! "action" with
      | None => inl (Exn KeyError (text "'action'"))
      | Some a =>
          let rest := delete "action" d in
          match rest !! "self" with
          | Some _ =>
              inl (multiple_values "TestStep.__init__" "self")
          | None => inr (TestStep.mk a rest)
          end
      end
  | VList _ =>
      inl (Exn TypeError
             (text "'str' object cannot be interpreted as an integer"))
  | _ =>
      inl (Exn AttributeError
             [Lit "'"; Lit (type_name step);
              Lit "' object has no attribute 'pop'"])
  end.

(** The list comprehension of [from_dict]: the first element that
    cannot be turned into a step ends it. *)
Fixpoint make_steps (l : list pyval) : exn + list TestStep.t :=
  match l with
  | [] => inr []
  | x :: l' =>
      match make_step x with
      | inl e => inl e
      | inr st =>
          match make_steps l' with
          | inl e => inl e
          | inr sts => inr (st :: sts)
          end
      end
  end.

Module TestScript.

Record t : Type := mk {
  name : pyval;
  description : pyval;
  base_url : pyval;
  headless : pyval;
  steps : list TestStep.t;
  timeout : pyval;
  screenshot_on_failure : pyval;
}.

Definition from_dict (data : gmap string pyval) : exn + t :=
  match py_iter (dict_get data "steps" (VList [])) with
  | inl e => inl e
  | inr items =>
      match make_steps items with
      | inl e => inl e
      | inr sts =>
          inr {| name := dict_get data "name" (VStr "Unnamed Test");
                 description := dict_get data "description" (VStr "");
                 base_url :=
                   dict_get data "base_url" (VStr "http://localhost:5000");
                 headless := dict_get data "headless" (VBool true);
                 timeout := dict_get data "timeout" (VInt 30000);
                 screenshot_on_failure :=
                   dict_get data "screenshot_on_failure" (VBool true);
                 steps := sts |}
      end
  end.

End TestScript.

Module ScriptParser.

Definition parse_file (file_path : string) : prog TestScript.t :=
  found ← call (PathExists file_path);
  if negb found then
    Raise (Exn FileNotFoundError
             [Lit "Test script not found: "; Lit file_path])
  else
    data ← call (SafeLoad file_path);
    match data with
    | VDict d => lift (TestScript.from_dict d)
    | _ => Raise (Exn ValueError (text "Test script must be a YAML dictionary"))
    end.

(** The registry of [validate_script]: each action with its required
    parameter names. *)
Definition valid_actions : gmap string (list string) :=
  list_to_map
    [ ("navigate", ["url"]);
      ("click", ["selector"]);
      ("type", ["selector"; "text"]);
      ("wait_for_selector", ["selector"]);
      ("assert_text", ["selector"; "expected"]);
      ("assert_visible", ["selector"]);
      ("upload_file", ["selector"; "file_path"]);
      ("screenshot", ["filename"]);
      ("wait", ["ms"]);
      ("select_option", ["selector"; "value"]);
      ("check", ["selector"]);
      ("uncheck", ["selector"]);
      ("hover", ["selector"]);
      ("press", ["selector"; "key"]);
      ("evaluate_js", ["script"]);
      ("count_elements", ["selector"]);
      ("assert_count", ["selector"; "expected"]);
      ("assert_min_count", ["selector"; "minimum"]);
      ("get_text", ["selector"]) ].

(** [step.action in valid_actions]: only a string can be a key of the
    registry; a list or a mapping cannot be hashed. *)
Definition registry_lookup (a : pyval) : exn + option (list string) :=
  match a with
  | VStr s => inr (valid_actions !! s)
  | VList _ | VDict _ =>
      inl (Exn TypeError
             [Lit "unhashable type: '"; Lit (type_name a); Lit "'"])
  | _ => inr None
  end.

(** [[p for p in required_params if p not in step.params]] *)
Definition missing_params (required : list string)
  (ps : gmap string pyval) : list string :=
  filter (fun p => ps !! p = None) required.

(** The loop over [enumerate(script.steps, 1)], from index [i] on. *)
Fixpoint validate_steps (i : nat) (sts : list TestStep.t) (errors : list msg)
  : exn + list msg :=
  match sts with
  | [] => inr errors
  | step :: rest =>
      match registry_lookup (TestStep.action step) with
      | inl e => inl e
      | inr None =>
          validate_steps (S i) rest
            (errors ++ [[Lit "Step "; Fmt (VInt (Z.of_nat i));
                         Lit ": Unknown action '"; Fmt (TestStep.action step);
                         Lit "'"]])
      | inr (Some required_params) =>
          let missing :=
            missing_params required_params (TestStep.params step) in
          match missing with
          | [] => validate_steps (S i) rest errors
          | _ =>
              validate_steps (S i) rest
                (errors ++ [[Lit "Step "; Fmt (VInt (Z.of_nat i));
                             Lit ": Action '"; Fmt (TestStep.action step);
                             Lit "' missing required parameters: ";
                             Fmt (VList (VStr <$> missing))]])
          end
      end
  end.

Definition validate_script (script : TestScript.t) : exn + list msg :=
  let errors := [] in
  let errors :=
    if negb (truthy (TestScript.name script))
    then errors ++ [text "Script must have a name"] else errors in
  let errors :=
    match TestScript.steps script with
    | [] => errors ++ [text "Script must have at least one step"]
    | _ => errors
    end in
  validate_steps 1 (TestScript.steps script) errors.

End ScriptParser.

(** ** The action dispatcher ([engine/actions.py]) *)

(** Binding of a call that unpacks a mapping [kw] as keyword arguments
    to a method whose signature is [(self, required..., **kwargs)]: the
    values of the required parameters in order, and the keyword
    arguments left over. *)
Definition bind1 (qualname p : string) (kw : gmap string pyval)
  : exn + (pyval * gmap string pyval) :=
  match kw !! "self" with
  | Some _ => inl (multiple_values qualname "self")
  | None =>
      match kw !! p with
      | Some a => inr (a, delete p kw)
      | None => inl (missing_arguments qualname [p])
      end
  end.

Definition bind2 (qualname p1 p2 : string) (kw : gmap string pyval)
  : exn + (pyval * pyval * gmap string pyval) :=
  match kw !! "self" with
  | Some _ => inl (multiple_values qualname "self")
  | None =>
      match kw !! p1, kw !! p2 with
      | Some a, Some b => inr (a, b, delete p2 (delete p1 kw))
      | _, _ =>
          inl (missing_arguments qualname
                 (filter (fun p => kw !! p = None) [p1; p2]))
      end
  end.

(** The same for a signature without [**kwargs]: a keyword that is not
    a parameter is refused. When several binding errors apply, the
    interpreter reports the one it meets first in the mapping's order;
    here [self] is looked at first. *)
Definition bind2_exact (qualname p1 p2 : string) (kw : gmap string pyval)
  : exn + (pyval * pyval) :=
  match bind2 qualname p1 p2 kw with
  | inl e => inl e
  | inr (a, b, rest) =>
      match (map_to_list rest).*1 with
      | [] => inr (a, b)
      | k :: _ =>
          inl (Exn TypeError
                 [Lit qualname; Lit "() got an unexpected keyword argument '";
                  Lit k; Lit "'"])
      end
  end.

(** [count < minimum] for the integer a locator count is. *)
Definition int_lt (count : Z) (v : pyval) : exn + bool :=
  match v with
  | VInt m => inr (count <? m)%Z
  | VBool b => inr (count <? bool_to_Z b)%Z
  | _ => inl (Exn TypeError
                [Lit "'<' not supported between instances of 'int' and '";
                 Lit (type_name v); Lit "'"])
  end.

Module BrowserActions.

Record t : Type := mk { page : handle }.

Definition navigate (self : t) (url : pyval) (kwargs : gmap string pyval)
  : prog pyval :=
  _ ← call (PageCall (page self) Goto [url] kwargs); Ret VNone.

Definition click (self : t) (selector : pyval) (kwargs : gmap string pyval)
  : prog pyval :=
  _ ← call (PageCall (page self) Click [selector] kwargs); Ret VNone.

Definition type (self : t) (selector text : pyval)
  (kwargs : gmap string pyval) : prog pyval :=
  _ ← call (PageCall (page self) Fill [selector; text] kwargs); Ret VNone.

Definition wait_for_selector (self : t) (selector timeout : pyval)
  (kwargs : gmap string pyval) : prog pyval :=
  _ ← call (PageCall (page self) WaitForSelector [selector]
              (<["timeout" := timeout]> kwargs));
  Ret VNone.

Definition assert_text (self : t) (selector expected : pyval)
  (kwargs : gmap string pyval) : prog pyval :=
  _ ← call (PageCall (page self) ExpectToContainText [selector; expected]
              kwargs);
  Ret VNone.

Definition assert_visible (self : t) (selector : pyval)
  (kwargs : gmap string pyval) : prog pyval :=
  _ ← call (PageCall (page self) ExpectToBeVisible [selector] kwargs);
  Ret VNone.

Definition upload_file (self : t) (selector file_path : pyval)
  (kwargs : gmap string pyval) : prog pyval :=
  match file_path with
  | VStr fp =>
      path ← call (Expanduser fp);
      found ← call (PathExists path);
      if negb found then
        Raise (Exn FileNotFoundError [Lit "File not found: "; Fmt file_path])
      else
        abs ← call (Absolute path);
        _ ← call (PageCall (page self) SetInputFiles [selector; VStr abs]
                    kwargs);
        Ret VNone
  | _ =>
      Raise (Exn TypeError
               [Lit "expected str, bytes or os.PathLike object, not ";
                Lit (type_name file_path)])
  end.

Definition screenshot (self : t) (filename : pyval)
  (kwargs : gmap string pyval) : prog pyval :=
  match kwargs !! "path" with
  | Some _ =>
      Raise (Exn TypeError
               [Lit "Page.screenshot";
                Lit "() got multiple values for keyword argument 'path'"])
  | None =>
      _ ← call (PageCall (page self) Screenshot []
                  (<["path" := filename]> kwargs));
      Ret VNone
  end.

Definition wait (self : t) (ms : pyval) (kwargs : gmap string pyval)
  : prog pyval :=
  _ ← call (PageCall (page self) WaitForTimeout [ms] ∅); Ret VNone.

Definition select_option (self : t) (selector value : pyval)
  (kwargs : gmap string pyval) : prog pyval :=
  _ ← call (PageCall (page self) SelectOption [selector; value] kwargs);
  Ret VNone.

Definition check (self : t) (selector : pyval) (kwargs : gmap string pyval)
  : prog pyval :=
  _ ← call (PageCall (page self) Check_ [selector] kwargs); Ret VNone.

Definition uncheck (self : t) (selector : pyval)
  (kwargs : gmap string pyval) : prog pyval :=
  _ ← call (PageCall (page self) Uncheck [selector] kwargs); Ret VNone.

Definition hover (self : t) (selector : pyval) (kwargs : gmap string pyval)
  : prog pyval :=
  _ ← call (PageCall (page self) Hover [selector] kwargs); Ret VNone.

Definition press (self : t) (selector key : pyval)
  (kwargs : gmap string pyval) : prog pyval :=
  _ ← call (PageCall (page self) Press [selector; key] kwargs); Ret VNone.

Definition evaluate_js (self : t) (script : pyval)
  (kwargs : gmap string pyval) : prog pyval :=
  result ← call (PageCall (page self) Evaluate [script] kwargs);
  Ret result.

Definition count_elements (self : t) (selector : pyval)
  (kwargs : gmap string pyval) : prog pyval :=
  count ← call (LocatorCount (page self) selector);
  if (count =? 0)%Z then
    Raise (Exn AssertionError
             [Lit "Expected at least 1 element matching '"; Fmt selector;
              Lit "', found 0"])
  else Ret VNone.

Definition assert_count (self : t) (selector expected : pyval)
  (kwargs : gmap string pyval) : prog pyval :=
  count ← call (LocatorCount (page self) selector);
  if negb (py_eq (VInt count) expected) then
    Raise (Exn AssertionError
             [Lit "Expected "; Fmt expected; Lit " elements matching '";
              Fmt selector; Lit "', found "; Fmt (VInt count)])
  else Ret VNone.

Definition assert_min_count (self : t) (selector minimum : pyval)
  (kwargs : gmap string pyval) : prog pyval :=
  count ← call (LocatorCount (page self) selector);
  below ← lift (int_lt count minimum);
  if below : bool then
    Raise (Exn AssertionError
             [Lit "Expected at least "; Fmt minimum;
              Lit " elements matching '"; Fmt selector; Lit "', found ";
              Fmt (VInt count)])
  else Ret VNone.

Definition get_text (self : t) (selector : pyval)
  (kwargs : gmap string pyval) : prog pyval :=
  _ ← call (LocatorTextContent (page self) selector); Ret VNone.

(** What [getattr(self, name, None)] finds on a [BrowserActions]
    object: the coroutine methods of the class with the names of their
    positional parameters, the dispatcher itself, the [page] attribute,
    and the names of the form [__x] that the object model answers
    ([__init__], [__class__], [__doc__], ...). *)
Inductive attr : Type :=
| Method1 (f : t → pyval → gmap string pyval → prog pyval) (p : string)
| Method2 (f : t → pyval → pyval → gmap string pyval → prog pyval)
          (p1 p2 : string)
| Method_wait_for_selector
| Method_execute_action
| Attr_page
| Attr_special.

Definition is_special (s : string) : bool :=
  match s with
  | String c1 (String c2 _) =>
      Ascii.eqb c1 (Ascii.ascii_of_nat 95)
      && Ascii.eqb c2 (Ascii.ascii_of_nat 95)
  | _ => false
  end.

Definition getattr (self : t) (name : string) : option attr :=
  if String.eqb name "navigate" then Some (Method1 navigate "url")
  else if String.eqb name "click" then Some (Method1 click "selector")
  else if String.eqb name "type" then Some (Method2 type "selector" "text")
  else if String.eqb name "wait_for_selector" then Some Method_wait_for_selector
  else if String.eqb name "assert_text"
       then Some (Method2 assert_text "selector" "expected")
  else if String.eqb name "assert_visible"
       then Some (Method1 assert_visible "selector")
  else if String.eqb name "upload_file"
       then Some (Method2 upload_file "selector" "file_path")
  else if String.eqb name "screenshot" then Some (Method1 screenshot "filename")
  else if String.eqb name "wait" then Some (Method1 wait "ms")
  else if String.eqb name "select_option"
       then Some (Method2 select_option "selector" "value")
  else if String.eqb name "check" then Some (Method1 check "selector")
  else if String.eqb name "uncheck" then Some (Method1 uncheck "selector")
  else if String.eqb name "hover" then Some (Method1 hover "selector")
  else if String.eqb name "press" then Some (Method2 press "selector" "key")
  else if String.eqb name "evaluate_js" then Some (Method1 evaluate_js "script")
  else if String.eqb name "count_elements"
       then Some (Method1 count_elements "selector")
  else if String.eqb name "assert_count"
       then Some (Method2 assert_count "selector" "expected")
  else if String.eqb name "assert_min_count"
       then Some (Method2 assert_min_count "selector" "minimum")
  else if String.eqb name "get_text" then Some (Method1 get_text "selector")
  else if String.eqb name "execute_action" then Some Method_execute_action
  else if String.eqb name "page" then Some Attr_page
  else if is_special name then Some Attr_special
  else None.

(** [await method] applied to the unpacked mapping, for the attribute
    found. [reenter] is the
    dispatcher itself, for the case where the name looked up is
    [execute_action]. *)
Definition invoke (self : t) (name : string) (method : attr)
  (kw : gmap string pyval) (reenter : pyval → pyval → prog unit)
  : prog unit :=
  let qualname := String.append "BrowserActions." name in
  match method with
  | Method1 f p =>
      '(a, kwargs) ← lift (bind1 qualname p kw);
      _ ← f self a kwargs; Ret ()
  | Method2 f p1 p2 =>
      '(a, b, kwargs) ← lift (bind2 qualname p1 p2 kw);
      _ ← f self a b kwargs; Ret ()
  | Method_wait_for_selector =>
      '(selector, kwargs) ← lift (bind1 qualname "selector" kw);
      _ ← wait_for_selector self selector
            (dict_get kwargs "timeout" (VInt 30000))
            (delete "timeout" kwargs);
      Ret ()
  | Method_execute_action =>
      '(action, params) ← lift (bind2_exact qualname "action" "params" kw);
      reenter action params
  | Attr_page => Raise (Exn TypeError (text "'Page' object is not callable"))
  | Attr_special => call (SpecialAttr name (VDict kw))
  end.

(** [execute_action], with [fuel] bounding how often the dispatcher
    may re-enter itself through the name [execute_action]. *)
Fixpoint execute_action_rec (fuel : nat) (self : t) (action params : pyval)
  : prog unit :=
  match action with
  | VStr name =>
      match getattr self name with
      | None => Raise (Exn ValueError [Lit "Unknown action: "; Fmt action])
      | Some method =>
          match params with
          | VDict kw =>
              invoke self name method kw
                (fun action' params' =>
                   match fuel with
                   | O => Raise (Exn RecursionError
                                   (text "maximum recursion depth exceeded"))
                   | S fuel' => execute_action_rec fuel' self action' params'
                   end)
          | _ =>
              Raise (Exn TypeError
                       [Lit "argument after ** must be a mapping, not ";
                        Lit (type_name params)])
          end
      end
  | _ =>
      Raise (Exn TypeError
               [Lit "attribute name must be string, not '";
                Lit (type_name action); Lit "'"])
  end.

(** Each re-entry runs on a value nested inside [params], so its size
    is fuel enough (see [execute_action_rec_fuel]). *)
Definition execute_action (self : t) (action params : pyval) : prog unit :=
  execute_action_rec (pysize params) self action params.

End BrowserActions.

(** ** The execution engine ([engine/browser_engine.py]) *)

Module TestResult.

(** Timestamps are microseconds since the epoch. *)
Record t : Type := mk {
  script_name : pyval;
  passed : bool;
  error : option msg;
  start_time : option Z;
  end_time : option Z;
  steps_executed : nat;
  steps_total : nat;
  screenshots : list string;
}.

(** [TestResult(script_name)] *)
Definition init (script_name : pyval) : t :=
  mk script_name false None None None 0 0 [].

(** The [duration] property, in microseconds: [total_seconds()] is this
    number divided by 10^6. *)
Definition duration (self : t) : Z :=
  match start_time self, end_time self with
  | Some s, Some e => (e - s)%Z
  | _, _ => 0%Z
  end.

Definition set_passed (b : bool) (r : t) : t :=
  mk (script_name r) b (error r) (start_time r) (end_time r)
     (steps_executed r) (steps_total r) (screenshots r).

Definition set_error (e : option msg) (r : t) : t :=
  mk (script_name r) (passed r) e (start_time r) (end_time r)
     (steps_executed r) (steps_total r) (screenshots r).

Definition set_start_time (ts : Z) (r : t) : t :=
  mk (script_name r) (passed r) (error r) (Some ts) (end_time r)
     (steps_executed r) (steps_total r) (screenshots r).

Definition set_end_time (ts : Z) (r : t) : t :=
  mk (script_name r) (passed r) (error r) (start_time r) (Some ts)
     (steps_executed r) (steps_total r) (screenshots r).

Definition set_steps_total (n : nat) (r : t) : t :=
  mk (script_name r) (passed r) (error r) (start_time r) (end_time r)
     (steps_executed r) n (screenshots r).

Definition incr_steps_executed (r : t) : t :=
  mk (script_name r) (passed r) (error r) (start_time r) (end_time r)
     (S (steps_executed r)) (steps_total r) (screenshots r).

Definition append_screenshot (p : string) (r : t) : t :=
  mk (script_name r) (passed r) (error r) (start_time r) (end_time r)
     (steps_executed r) (steps_total r) (screenshots r ++ [p]).

(** [not self.error] *)
Definition error_unset (r : t) : bool :=
  match error r with
  | None => true
  | Some m => negb (msg_truthy m)
  end.

End TestResult.

Definition none_has_no_attribute (attribute : string) : exn :=
  Exn AttributeError
    [Lit "'NoneType' object has no attribute '"; Lit attribute; Lit "'"].

(** [s.replace(' ', '_')] *)
Fixpoint replace_spaces (s : string) : string :=
  match s with
  | EmptyString => EmptyString
  | String c s' =>
      String (if Ascii.eqb c (Ascii.ascii_of_nat 32)
              then Ascii.ascii_of_nat 95 else c)
             (replace_spaces s')
  end.

Module BrowserEngine.

Record t : Type := mk {
  headless : pyval;
  browser_type : string;
  playwright : option handle;
  browser : option handle;
  context : option handle;
  page : option handle;
  actions : option BrowserActions.t;
}.

(** [BrowserEngine(headless, browser_type)] *)
Definition init (headless : pyval) (browser_type : string) : t :=
  mk headless browser_type None None None None None.

(** Methods that assign to [self] return the engine as they leave it
    together with how they ended. *)
Definition start (self : t) : prog (t * (exn + ())) :=
  r ← attempt (call PlaywrightStart);
  match r with
  | inl e => Ret (self, inl e)
  | inr pw =>
      let self := mk (headless self) (browser_type self) (Some pw)
                     (browser self) (context self) (page self)
                     (actions self) in
      if bool_decide (browser_type self ∈ ["chromium"; "firefox"; "webkit"])
      then
        r ← attempt (call (Launch pw (browser_type self) (headless self)));
        match r with
        | inl e => Ret (self, inl e)
        | inr b =>
            let self := mk (headless self) (browser_type self)
                           (playwright self) (Some b) (context self)
                           (page self) (actions self) in
            r ← attempt (call (NewContext b));
            match r with
            | inl e => Ret (self, inl e)
            | inr ctx =>
                let self := mk (headless self) (browser_type self)
                               (playwright self) (browser self) (Some ctx)
                               (page self) (actions self) in
                r ← attempt (call (NewPage ctx));
                match r with
                | inl e => Ret (self, inl e)
                | inr pg =>
                    Ret (mk (headless self) (browser_type self)
                            (playwright self) (browser self) (context self)
                            (Some pg) (Some (BrowserActions.mk pg)),
                         inr ())
                end
            end
        end
      else
        Ret (self, inl (Exn ValueError [Lit "Unknown browser type: ";
                                        Lit (browser_type self)]))
  end.

Definition stop (self : t) : prog () :=
  _ ← match context self with
      | Some ctx => call (CloseContext ctx)
      | None => Ret ()
      end;
  _ ← match browser self with
      | Some b => call (CloseBrowser b)
      | None => Ret ()
      end;
  match playwright self with
  | Some pw => call (PlaywrightStop pw)
  | None => Ret ()
  end.

(** [self.page.set_default_timeout(script.timeout)] *)
Definition set_default_timeout (self : t) (script : TestScript.t) : prog () :=
  match page self with
  | None => Raise (none_has_no_attribute "set_default_timeout")
  | Some pg =>
      _ ← call (PageCall pg SetDefaultTimeout [TestScript.timeout script]
                  ∅);
      Ret ()
  end.

(** [await self.actions.execute_action(step.action, step.params)] *)
Definition dispatch (self : t) (step : TestStep.t) : prog () :=
  match actions self with
  | None => Raise (none_has_no_attribute "execute_action")
  | Some a =>
      BrowserActions.execute_action a (TestStep.action step)
        (VDict (TestStep.params step))
  end.

(** The message recorded for a failing step. *)
Definition step_error_msg (i : nat) (step : TestStep.t) (e : exn) : msg :=
  [Lit "Step "; Fmt (VInt (Z.of_nat i)); Lit " failed (";
   Fmt (TestStep.action step); Lit "): "] ++ exn_msg e.

(** The screenshot taken in the handler of a failing step: the path it
    was saved under, or the exception met on the way. *)
Definition failure_screenshot (self : t) (script : TestScript.t) (i : nat)
  : prog string :=
  match TestScript.name script with
  | VStr n =>
      let screenshot_path :=
        String.append "failure_"
          (String.append (replace_spaces n)
             (String.append "_" (String.append (pretty i) ".png"))) in
      match page self with
      | None => Raise (none_has_no_attribute "screenshot")
      | Some pg =>
          _ ← call (PageCall pg Screenshot []
                      {[ "path" := VStr screenshot_path ]});
          Ret screenshot_path
      end
  | v =>
      Raise (Exn AttributeError
               [Lit "'"; Lit (type_name v);
                Lit "' object has no attribute 'replace'"])
  end.

(** The loop over [enumerate(script.steps, 1)] from index [i] on, with
    the [try]/[except Exception] around each step. It returns the
    result as mutated so far and the exception that left the loop, if
    any. *)
Fixpoint run_steps (self : t) (script : TestScript.t) (i : nat)
  (sts : list TestStep.t) (result : TestResult.t)
  : prog (TestResult.t * option exn) :=
  match sts with
  | [] => Ret (result, None)
  | step :: rest =>
      r ← attempt (dispatch self step);
      match r with
      | inr _ =>
          run_steps self script (S i) rest
            (TestResult.incr_steps_executed result)
      | inl e =>
          if is_Exception e then
            let error_msg := step_error_msg i step e in
            let result := TestResult.set_error (Some error_msg) result in
            if truthy (TestScript.screenshot_on_failure script) then
              s ← attempt (failure_screenshot self script i);
              match s with
              | inl e' => Ret (result, Some e')
              | inr screenshot_path =>
                  Ret (TestResult.append_screenshot screenshot_path result,
                       Some e)
              end
            else Ret (result, Some e)
          else Ret (result, Some e)
      end
  end.

(** The body of the [try] statement of [execute_script]: the result
    as it stands when the body is left, and the exception that left
    it, if any. *)
Definition try_body (self : t) (script : TestScript.t)
  (result : TestResult.t) : prog (TestResult.t * option exn) :=
  r ← attempt (set_default_timeout self script);
  match r with
  | inl e => Ret (result, Some e)
  | inr _ =>
      '(result, exc) ←
        run_steps self script 1 (TestScript.steps script) result;
      match exc with
      | Some e => Ret (result, Some e)
      | None => Ret (TestResult.set_passed true result, None)
      end
  end.

(** The clause [except Exception as e]. An exception it does not catch
    stays pending. *)
Definition except_Exception (result : TestResult.t) (exc : option exn)
  : TestResult.t * option exn :=
  match exc with
  | Some e =>
      if is_Exception e then
        let result := TestResult.set_passed false result in
        let result :=
          if TestResult.error_unset result
          then TestResult.set_error (Some (exn_msg e)) result
          else result in
        (result, None)
      else (result, Some e)
  | None => (result, None)
  end.

(** The clause [finally], then [return result] unless an exception is
    pending. *)
Definition finally (result : TestResult.t) (pending : option exn)
  : prog TestResult.t :=
  t1 ← call Now;
  let result := TestResult.set_end_time t1 result in
  match pending with
  | Some e => Raise e
  | None => Ret result
  end.

Definition execute_script (self : t) (script : TestScript.t)
  : prog TestResult.t :=
  let result := TestResult.init (TestScript.name script) in
  t0 ← call Now;
  let result := TestResult.set_start_time t0 result in
  let result :=
    TestResult.set_steps_total (length (TestScript.steps script)) result in
  '(result, exc) ← try_body self script result;
  let '(result, pending) := except_Exception result exc in
  finally result pending.

Definition newline : string := String (Ascii.ascii_of_nat 10) EmptyString.

(** ["\n".join(f"  - {e}" for e in errors)] *)
Fixpoint bullet_lines (errors : list msg) : msg :=
  match errors with
  | [] => []
  | [e] => Lit "  - " :: e
  | e :: rest => (Lit "  - " :: e) ++ Lit newline :: bullet_lines rest
  end.

(** Loading and validating, the part of [run_test_file] that comes
    before the session is touched. *)
Definition load_script (script_path : string) : prog TestScript.t :=
  script ← ScriptParser.parse_file script_path;
  errors ← lift (ScriptParser.validate_script script);
  match errors with
  | [] => Ret script
  | _ =>
      Raise (Exn ValueError
               (Lit "Script validation failed:" :: Lit newline
                  :: bullet_lines errors))
  end.

Definition run_test_file (self : t) (script_path : string)
  : prog (t * (exn + TestResult.t)) :=
  r ← attempt (load_script script_path);
  match r with
  | inl e => Ret (self, inl e)
  | inr script =>
      (* override headless setting from script *)
      '(self, r) ←
        (if negb (bool_decide (is_Some (browser self)))
            || negb (py_eq (TestScript.headless script) (headless self))
         then
           r ← (match browser self with
                | Some _ => attempt (stop self)
                | None => Ret (inr ())
                end);
           match r with
           | inl e => Ret (self, inl e)
           | inr _ =>
               start (mk (TestScript.headless script) (browser_type self)
                         (playwright self) (browser self) (context self)
                         (page self) (actions self))
           end
         else Ret (self, inr ()));
      match r with
      | inl e => Ret (self, inl e)
      | inr _ =>
          r ← attempt (execute_script self script);
          Ret (self, r)
      end
  end.

End BrowserEngine.

(** ** The command line driver ([cli/main.py]) *)

(** The loop of [run_tests] over the script paths, inside the engine's
    context: the engine as the loop leaves it, and the results
    collected, or the exception that ended the loop. *)
Fixpoint run_loop (script_paths : list string) (engine : BrowserEngine.t)
  (results : list TestResult.t)
  : prog (BrowserEngine.t * (exn + list TestResult.t)) :=
  match script_paths with
  | [] => Ret (engine, inr results)
  | script_path :: rest =>
      '(engine, r) ← BrowserEngine.run_test_file engine script_path;
      match r with
      | inr result => run_loop rest engine (results ++ [result])
      | inl e =>
          if is_Exception e then
            run_loop rest engine
              (results ++
                 [TestResult.set_error (Some (exn_msg e))
                    (TestResult.init (VStr script_path))])
          else Ret (engine, inl e)
      end
  end.

Definition count_passed (results : list TestResult.t) : nat :=
  length (filter (fun r => TestResult.passed r = true) results).

Definition run_tests (script_paths : list string) (headless : bool)
  (browser : string) : prog Z :=
  (* async with BrowserEngine(...) as engine *)
  '(engine, r) ← BrowserEngine.start
                   (BrowserEngine.init (VBool headless) browser);
  _ ← lift r;
  '(engine, body) ← run_loop script_paths engine [];
  _ ← BrowserEngine.stop engine;
  results ← lift body;
  (* summary *)
  let passed := count_passed results in
  let failed := (length results - passed)%nat in
  Ret (if (failed =? 0)%nat then 0%Z else 1%Z).

(** The parsed command line. [--headless] is a flag whose default is
    already true, so [headless_flag] is true however it is given. *)
Record arguments : Type := mkArguments {
  scripts : list string;
  headless_flag : bool;
  headed : bool;
  browser_choice : string;
  validate : bool;
}.

(** The loop of validate mode; [all_valid] is the flag so far. *)
Fixpoint validate_loop (script_paths : list string) (all_valid : bool)
  : prog bool :=
  match script_paths with
  | [] => Ret all_valid
  | script_path :: rest =>
      r ← attempt (script ← ScriptParser.parse_file script_path;
                   lift (ScriptParser.validate_script script));
      match r with
      | inr [] => validate_loop rest all_valid
      | inr _ => validate_loop rest false
      | inl e =>
          if is_Exception e then validate_loop rest false else Raise e
      end
  end.

(** How [main] ends: by returning a status to its caller, or by
    [sys.exit]. *)
Inductive main_status : Type :=
| Returned (code : Z)
| Exited (code : Z).

Definition main (args : arguments) : prog main_status :=
  if validate args then
    all_valid ← validate_loop (scripts args) true;
    Ret (Returned (if all_valid : bool then 0%Z else 1%Z))
  else
    let headless :=
      if headed args then negb (headed args) else headless_flag args in
    r ← attempt (run_tests (scripts args) headless (browser_choice args));
    match r with
    | inr exit_code => Ret (Exited exit_code)
    | inl e =>
        match exn_cls e with
        | KeyboardInterrupt => Ret (Exited 130%Z)
        | _ => Raise e
        end
    end.

(** ** A stub environment

    A driver double for running the program on concrete inputs: the
    disk is a finite map from paths to parsed documents, the clock
    ticks once per event, every session handle is fresh, and [fails]
    names the events that raise. *)

Definition stub_answer (files : gmap string pyval) (c : ext) (w : Z)
  : exn + resp c :=
  match c return exn + resp c with
  | PageCall _ _ _ _ => inr VNone
  | LocatorCount _ _ => inr 1%Z
  | LocatorTextContent _ _ => inr (VStr "")
  | PathExists p => inr (bool_decide (is_Some (files !! p)))
  | Expanduser p => inr p
  | Absolute p => inr p
  | SafeLoad p =>
      match files !! p with
      | Some v => inr v
      | None => inl (Exn FileNotFoundError [Lit "No such file: "; Lit p])
      end
  | Now => inr w
  | PlaywrightStart => inr (Z.to_N w)
  | Launch _ _ _ => inr (Z.to_N w)
  | NewContext _ => inr (Z.to_N w)
  | NewPage _ => inr (Z.to_N w)
  | CloseContext _ => inr ()
  | CloseBrowser _ => inr ()
  | PlaywrightStop _ => inr ()
  | SpecialAttr _ _ => inr ()
  end.

Definition stub (files : gmap string pyval) (fails : ext → option exn)
  : environment Z :=
  fun c w =>
    ((w + 1)%Z,
     match fails c with
     | Some e => inl e
     | None => stub_answer files c w
     end).

Definition never_fails (c : ext) : option exn := None.

(** * Specification vocabulary

    The notions the properties below are stated with, and the concrete
    scripts, documents and environments they are tried on. *)

(** ** Notions *)

(** A message about a step, as the step loop of the validator writes
    them. *)
Definition step_message (m : msg) : Prop :=
  ∃ rest, m = Lit "Step " :: rest.

(** A step the validator has nothing to say about: its action is a
    name of the registry and every parameter the registry requires for
    it is supplied. *)
Definition step_complete (step : TestStep.t) : Prop :=
  ∃ a required,
    TestStep.action step = VStr a ∧
    ScriptParser.valid_actions !! a = Some required ∧
    Forall (fun p => is_Some (TestStep.params step !! p)) required.

(** An event that hands on every parameter of [kw] outside [required],
    with its value. *)
Definition forwards (required : list string) (kw : gmap string pyval)
  (c : ext) : Prop :=
  match c with
  | PageCall _ _ _ kw' =>
      ∀ k v, k ∉ required → kw !! k = Some v → kw' !! k = Some v
  | _ => True
  end.

(** An event that hands on no keyword argument at all. *)
Definition carries_nothing (c : ext) : Prop :=
  match c with
  | PageCall _ _ _ kw' => kw' = ∅
  | _ => True
  end.

(** The actions whose adapter passes [**kwargs] on to the driver, and
    those whose adapter accepts and drops them. *)
Definition forwarding_actions : list string :=
  ["navigate"; "click"; "type"; "wait_for_selector"; "assert_text";
   "assert_visible"; "upload_file"; "screenshot"; "select_option"; "check";
   "uncheck"; "hover"; "press"; "evaluate_js"].

Definition ignoring_actions : list string :=
  ["wait"; "count_elements"; "assert_count"; "assert_min_count"; "get_text"].

(** Dispatching the steps in order from the world [w]: the world
    reached if every one of them returns, [None] as soon as one
    raises. *)
Fixpoint dispatch_all {W : Type} (env : environment W)
  (self : BrowserEngine.t) (sts : list TestStep.t) (w : W) : option W :=
  match sts with
  | [] => Some w
  | st :: rest =>
      match run env (BrowserEngine.dispatch self st) w with
      | (w', inr _) => dispatch_all env self rest w'
      | (_, inl _) => None
      end
  end.

(** The first failure among the steps [sts] dispatched from [w]: the
    steps [pre] before it all return, and the step [st] then raises
    [e]. *)
Definition fails_at {W : Type} (env : environment W)
  (self : BrowserEngine.t) (sts : list TestStep.t) (w : W)
  (pre : list TestStep.t) (st : TestStep.t) (e : exn) : Prop :=
  ∃ post w1 w2,
    sts = pre ++ st :: post ∧
    dispatch_all env self pre w = Some w1 ∧
    run env (BrowserEngine.dispatch self st) w1 = (w2, inl e).

(** The Init phase of [execute_script]: the world in which stepping
    starts (the start time is stamped and the script's timeout applied),
    or the exception that escaped before any step ran. *)
Definition init_phase {W : Type} (env : environment W)
  (self : BrowserEngine.t) (script : TestScript.t) (w : W)
  : option (W * (exn + ())) :=
  match env Now w with
  | (wa, inr _) =>
      Some (run env (BrowserEngine.set_default_timeout self script) wa)
  | (_, inl _) => None
  end.

(** [m] is the message of the first failure of a run of
    [execute_script] from [w]: that of the first step that raises, or
    that of the exception that escaped before any step ran. *)
Definition first_failure_message {W : Type} (env : environment W)
  (self : BrowserEngine.t) (script : TestScript.t) (w : W) (m : msg)
  : Prop :=
  (∃ wb pre st e,
     init_phase env self script w = Some (wb, inr ()) ∧
     fails_at env self (TestScript.steps script) wb pre st e ∧
     m = BrowserEngine.step_error_msg (S (length pre)) st e) ∨
  (∃ wb e,
     init_phase env self script w = Some (wb, inl e) ∧ m = exn_msg e).

(** ** Scripts, documents and environments to run *)

Definition navigate_step : TestStep.t :=
  TestStep.mk (VStr "navigate") {[ "url" := VStr "http://x" ]}.

(** A parsed YAML document with one step and no [name] key. *)
Definition nameless_document : gmap string pyval :=
  {[ "steps" :=
       VList [VDict {[ "action" := VStr "navigate";
                       "url" := VStr "http://x" ]}] ]}.

Definition empty_name_document : gmap string pyval :=
  <[ "name" := VStr "" ]> nameless_document.

(** An engine with a session open on page 7. *)
Definition started_engine : BrowserEngine.t :=
  BrowserEngine.mk (VBool true) "chromium" (Some 1%N) (Some 2%N) (Some 3%N)
    (Some 7%N) (Some (BrowserActions.mk 7%N)).

Definition click_step : TestStep.t :=
  TestStep.mk (VStr "click") {[ "selector" := VStr "#a" ]}.

Definition assert_text_step : TestStep.t :=
  TestStep.mk (VStr "assert_text")
    {[ "selector" := VStr "#b"; "expected" := VStr "hi" ]}.

Definition scenario_A : TestScript.t :=
  TestScript.mk (VStr "t1") (VStr "") (VStr "http://localhost:5000")
    (VBool true) [navigate_step] (VInt 30000) (VBool true).

Definition scenario_B : TestScript.t :=
  TestScript.mk (VStr "t2") (VStr "") (VStr "http://localhost:5000")
    (VBool true) [click_step; assert_text_step] (VInt 30000) (VBool true).

Definition no_steps : TestScript.t :=
  TestScript.mk (VStr "empty") (VStr "") (VStr "http://localhost:5000")
    (VBool true) [] (VInt 30000) (VBool true).

Definition text_mismatch : exn :=
  Exn AssertionError (text "Locator expected to contain text 'hi'").

(** The text assertion fails, and so does the screenshot taken in the
    failure handler. *)
Definition assertion_and_screenshot_fail (c : ext) : option exn :=
  match c with
  | PageCall _ ExpectToContainText _ _ => Some text_mismatch
  | PageCall _ Screenshot _ _ => Some (Exn OtherError (text "Target closed"))
  | _ => None
  end.

Definition scenario_B_result : TestResult.t :=
  TestResult.mk (VStr "t2") false
    (Some (BrowserEngine.step_error_msg 2 assert_text_step text_mismatch))
    (Some 0%Z) (Some 5%Z) 1 2 [].

Definition scenario_A_result : TestResult.t :=
  TestResult.mk (VStr "t1") true None (Some 0%Z) (Some 3%Z) 1 1 [].

(** Scenario D: the first path names no file, the second a valid
    script. *)
Definition scenario_D_files : gmap string pyval :=
  {[ "t1.yaml" := VDict (<[ "name" := VStr "t1" ]> nameless_document) ]}.

Definition missing_file : exn :=
  Exn FileNotFoundError [Lit "Test script not found: "; Lit "missing.yaml"].

(** ** Notions for the further properties *)

(** A value that cannot be hashed, hence cannot be looked up in a
    dictionary. *)
Definition unhashable (v : pyval) : Prop :=
  match v with
  | VList _ | VDict _ => True
  | _ => False
  end.

(** The message of the validator for an unknown action at step [i]. *)
Definition unknown_action_msg (i : nat) (step : TestStep.t) : msg :=
  [Lit "Step "; Fmt (VInt (Z.of_nat i)); Lit ": Unknown action '";
   Fmt (TestStep.action step); Lit "'"].

(** The message of the validator for missing parameters at step [i]. *)
Definition missing_params_msg (i : nat) (step : TestStep.t)
  (missing : list string) : msg :=
  [Lit "Step "; Fmt (VInt (Z.of_nat i)); Lit ": Action '";
   Fmt (TestStep.action step); Lit "' missing required parameters: ";
   Fmt (VList (VStr <$> missing))].

(** Reading a script touches the disk only. *)
Definition disk_event (c : ext) : Prop :=
  match c with
  | PathExists _ | SafeLoad _ => True
  | _ => False
  end.

(** The name of the screenshot taken when step [k] of the script named
    [n] fails. *)
Definition failure_path (n : string) (k : nat) : string :=
  String.append "failure_"
    (String.append (replace_spaces n)
       (String.append "_" (String.append (pretty k) ".png"))).

(** The dispatcher of an engine is bound to the engine's own page:
    both are unset, or both are set and name the same page. *)
Definition session_bound (engine : BrowserEngine.t) : Prop :=
  match BrowserEngine.page engine, BrowserEngine.actions engine with
  | Some pg, Some a => BrowserActions.page a = pg
  | None, None => True
  | _, _ => False
  end.

(** ** Further scripts, documents and environments to run *)

Definition script_of (steps : list TestStep.t) : TestScript.t :=
  TestScript.mk (VStr "t") (VStr "") (VStr "http://localhost:5000")
    (VBool true) steps (VInt 30000) (VBool true).

(** A step whose action is not in the registry, and one that lacks the
    [text] of a [type]. *)
Definition unknown_step : TestStep.t := TestStep.mk (VStr "fly") ∅.

Definition incomplete_step : TestStep.t :=
  TestStep.mk (VStr "type") {[ "selector" := VStr "#a" ]}.

(** A script with neither a name nor a step. *)
Definition blank_script : TestScript.t :=
  TestScript.mk (VStr "") (VStr "") (VStr "http://localhost:5000")
    (VBool true) [] (VInt 30000) (VBool true).

(** What [nameless_document] parses to. *)
Definition unnamed_script : TestScript.t :=
  TestScript.mk (VStr "Unnamed Test") (VStr "") (VStr "http://localhost:5000")
    (VBool true) [navigate_step] (VInt 30000) (VBool true).

(** A document whose only step has no action. *)
Definition actionless_document : gmap string pyval :=
  {[ "steps" := VList [VDict {[ "url" := VStr "http://x" ]}] ]}.

(** Scenario B with one more step after the failing one. *)
Definition scenario_B_longer : TestScript.t :=
  TestScript.mk (VStr "t2") (VStr "") (VStr "http://localhost:5000")
    (VBool true) [click_step; assert_text_step; navigate_step] (VInt 30000)
    (VBool true).

Definition interrupt : exn := Exn KeyboardInterrupt [].

(** The user interrupts the run during a click. *)
Definition interrupt_on_click (c : ext) : option exn :=
  match c with
  | PageCall _ Click _ _ => Some interrupt
  | _ => None
  end.

Definition target_closed : exn := Exn OtherError (text "Target closed").

(** The browser context is gone by the time it is closed. *)
Definition close_context_fails (c : ext) : option exn :=
  match c with
  | CloseContext _ => Some target_closed
  | _ => None
  end.

(** The engine at the end of the batch of Scenario D, and the result
    for the path that names no file. *)
Definition scenario_D_engine : BrowserEngine.t :=
  BrowserEngine.mk (VBool true) "chromium" (Some 3%N) (Some 4%N) (Some 5%N)
    (Some 6%N) (Some (BrowserActions.mk 6%N)).

Definition scenario_D_failed : TestResult.t :=
  TestResult.set_error (Some (exn_msg missing_file))
    (TestResult.init (VStr "missing.yaml")).

Definition scenario_D_passed : TestResult.t :=
  TestResult.mk (VStr "t1") true None (Some 7%Z) (Some 10%Z) 1 1 [].

Definition click_timeout : exn :=
  Exn OtherError (text "Timeout 30000ms exceeded").

(** The click times out; the screenshot of the failure succeeds. *)
Definition click_fails (c : ext) : option exn :=
  match c with
  | PageCall _ Click _ _ => Some click_timeout
  | _ => None
  end.

Definition scenario_B_click_result : TestResult.t :=
  TestResult.mk (VStr "t2") false
    (Some (BrowserEngine.step_error_msg 1 click_step click_timeout))
    (Some 0%Z) (Some 4%Z) 0 2 [failure_path "t2" 1].

(** * Properties *)

(** ** Running programs *)

Lemma run_prog_bind {W A B : Type} (env : environment W) (p : prog A)
  (f : A → prog B) (w : W) :
  run env (prog_bind f p) w =
  match run env p w with
  | (w', inl e) => (w', inl e)
  | (w', inr a) => run env (f a) w'
  end.
Proof.
  revert w. induction p as [a | e | c k IH]; intros w; simpl; try done.
  destruct (env c w) as [w' r]. apply IH.
Qed.

Lemma run_attempt {W A : Type} (env : environment W) (p : prog A) (w : W) :
  run env (attempt p) w =
  match run env p w with (w', r) => (w', inr r) end.
Proof.
  revert w. induction p as [a | e | c k IH]; intros w; simpl; try done.
  destruct (env c w) as [w' r]. apply IH.
Qed.

Lemma run_call {W : Type} (env : environment W) (c : ext) (w : W) :
  run env (call c) w = env c w.
Proof.
  unfold call. simpl. destruct (env c w) as [w' [e | v]]; done.
Qed.

Lemma run_lift {W A : Type} (env : environment W) (r : exn + A) (w : W) :
  run env (lift r) w = (w, r).
Proof. destruct r; done. Qed.

Lemma run_ret {W A : Type} (env : environment W) (a : A) (w : W) :
  run env (Ret a) w = (w, inr a).
Proof. reflexivity. Qed.

Lemma run_raise {W A : Type} (env : environment W) (e : exn) (w : W) :
  run env (Raise e : prog A) w = (w, inl e).
Proof. reflexivity. Qed.

(** From here on programs are taken apart with the lemmas above rather
    than by unfolding. *)
Arguments prog_bind : simpl never.
Arguments attempt : simpl never.
Arguments call : simpl never.
Arguments run : simpl never.
Arguments trace : simpl never.

Ltac run_bind := unfold mbind, prog_mbind; rewrite run_prog_bind.

Ltac run_call :=
  match goal with
  | |- context [run ?env (call ?c) ?w] =>
      let H := fresh in
      pose proof (run_call env c w) as H; cbn [resp] in H; rewrite H; clear H
  end.

Lemma trace_prog_bind {W A B : Type} (env : environment W) (p : prog A)
  (f : A → prog B) (w : W) :
  trace env (prog_bind f p) w =
  trace env p w ++
  match run env p w with
  | (w', inl e) => []
  | (w', inr a) => trace env (f a) w'
  end.
Proof.
  revert w. induction p as [a | e | c k IH]; intros w; try done.
  change (trace env (prog_bind f (Vis c k)) w)
    with (let '(w', r) := env c w in c :: trace env (prog_bind f (k r)) w').
  change (trace env (Vis c k) w)
    with (let '(w', r) := env c w in c :: trace env (k r) w').
  change (run env (Vis c k) w)
    with (let '(w', r) := env c w in run env (k r) w').
  destruct (env c w) as [w' r]. by rewrite IH.
Qed.

(** ** The duration of a result *)

(** C8, as stated, fails: a result whose end stamp lies before its
    start stamp (the wall clock was set back in between) has a
    negative duration. *)
Lemma duration_negative_counterexample :
  let r := TestResult.mk (VStr "t") true None (Some 5%Z) (Some 3%Z) 1 1 [] in
  TestResult.duration r = (-2)%Z ∧ ¬ (0 ≤ TestResult.duration r)%Z.
Proof.
  intros r. split; [reflexivity |].
  unfold TestResult.duration, r. simpl. lia.
Qed.

(** C8, amended: the duration is 0 whenever either stamp is unset, and
    is not negative provided the end stamp, when both are set, is not
    earlier than the start stamp. *)
Theorem duration_nonneg_when_ordered (r : TestResult.t) :
  (∀ s e, TestResult.start_time r = Some s →
          TestResult.end_time r = Some e → (s ≤ e)%Z) →
  (0 ≤ TestResult.duration r)%Z ∧
  (TestResult.start_time r = None ∨ TestResult.end_time r = None →
   TestResult.duration r = 0%Z).
Proof.
  intros Hord. unfold TestResult.duration.
  destruct (TestResult.start_time r) as [s|],
           (TestResult.end_time r) as [e|]; try (split; [lia | done]).
  split.
  - specialize (Hord s e eq_refl eq_refl). lia.
  - intros [? | ?]; discriminate.
Qed.

Lemma duration_nonneg_witness :
  let r := TestResult.mk (VStr "t") true None (Some 3%Z) (Some 5%Z) 1 1 [] in
  (0 ≤ TestResult.duration r)%Z ∧
  (TestResult.start_time r = None ∨ TestResult.end_time r = None →
   TestResult.duration r = 0%Z).
Proof.
  apply (duration_nonneg_when_ordered
           (TestResult.mk (VStr "t") true None (Some 3%Z) (Some 5%Z) 1 1 [])).
  simpl. intros s e Hs He.
  injection Hs as <-. injection He as <-. lia.
Defined.

(** ** The validator *)

(** The step loop only ever appends, and what it appends are messages
    about steps. *)
Lemma validate_steps_appends (sts : list TestStep.t) :
  ∀ i errors errors',
    ScriptParser.validate_steps i sts errors = inr errors' →
    ∃ added, errors' = errors ++ added ∧ Forall step_message added.
Proof.
  induction sts as [| step rest IH]; intros i errors errors' H; simpl in H.
  - injection H as <-. exists []. by rewrite app_nil_r.
  - destruct (ScriptParser.registry_lookup (TestStep.action step))
      as [e | [required |]]; [done | |].
    + destruct (ScriptParser.missing_params required (TestStep.params step)).
      * by apply IH in H.
      * apply IH in H as (added & -> & Hadded).
        eexists (_ :: added). rewrite <- app_assoc. split; [done |].
        constructor; [by eexists | done].
    + apply IH in H as (added & -> & Hadded).
      eexists (_ :: added). rewrite <- app_assoc. split; [done |].
      constructor; [by eexists | done].
Qed.

Lemma missing_params_nil (required : list string) (ps : gmap string pyval) :
  Forall (fun p => is_Some (ps !! p)) required →
  ScriptParser.missing_params required ps = [].
Proof.
  unfold ScriptParser.missing_params.
  induction 1 as [| p l [v Hp] _ IH]; [done |].
  rewrite filter_cons, Hp. by rewrite decide_False.
Qed.

Lemma validate_steps_complete (sts : list TestStep.t) :
  Forall step_complete sts →
  ∀ i errors, ScriptParser.validate_steps i sts errors = inr errors.
Proof.
  induction 1 as [| step rest (a & required & Ha & Hreg & Hps) _ IH];
    intros i errors; simpl; [done |].
  rewrite Ha. simpl. rewrite Hreg.
  by rewrite (missing_params_nil _ _ Hps).
Qed.

(** C4, as stated, fails: a script without steps has no step with an
    unknown action or a missing parameter, and does not validate. *)
Lemma validate_no_steps_counterexample :
  let script :=
    TestScript.mk (VStr "t1") (VStr "") (VStr "http://localhost:5000")
      (VBool true) [] (VInt 30000) (VBool true) in
  Forall step_complete (TestScript.steps script) ∧
  ScriptParser.validate_script script
  = inr [text "Script must have at least one step"] ∧
  ScriptParser.validate_script script ≠ inr [].
Proof. simpl. split; [constructor | split; [reflexivity | discriminate]]. Qed.

(** C4, amended: a script with a name and at least one step, in which
    every step's action is in the registry and no step is missing any
    of its action's required parameters, validates with an empty error
    list. *)
Theorem validate_script_complete (script : TestScript.t) :
  truthy (TestScript.name script) = true →
  TestScript.steps script ≠ [] →
  Forall step_complete (TestScript.steps script) →
  ScriptParser.validate_script script = inr [].
Proof.
  intros Hname Hsteps Hall. unfold ScriptParser.validate_script.
  rewrite Hname. simpl.
  destruct (TestScript.steps script) as [| st sts] eqn:E; [done |].
  by apply validate_steps_complete.
Qed.

Lemma navigate_step_complete : step_complete navigate_step.
Proof.
  exists "navigate", ["url"]. split; [reflexivity |].
  split; [by vm_compute |].
  constructor; [| constructor]. by eexists.
Qed.

Lemma validate_script_complete_witness :
  ScriptParser.validate_script
    (TestScript.mk (VStr "t1") (VStr "") (VStr "http://localhost:5000")
       (VBool true) [navigate_step] (VInt 30000) (VBool true))
  = inr [].
Proof.
  apply validate_script_complete.
  - reflexivity.
  - discriminate.
  - simpl. constructor; [apply navigate_step_complete | constructor].
Defined.

(** ** Validate mode *)

Lemma run_parse_file {W : Type} (env : environment W) (w w1 w2 : W)
  (path : string) (d : gmap string pyval) :
  env (PathExists path) w = (w1, inr true) →
  env (SafeLoad path) w1 = (w2, inr (VDict d)) →
  run env (ScriptParser.parse_file path) w = (w2, TestScript.from_dict d).
Proof.
  intros H1 H2. unfold ScriptParser.parse_file.
  run_bind. run_call. rewrite H1. simpl.
  run_bind. run_call. rewrite H2. apply run_lift.
Qed.

(** A document without a [name] key is given the default name, and the
    validator never asks for one. *)
Lemma missing_name_defaults (d : gmap string pyval) (script : TestScript.t)
  (errors : list msg) :
  d !! "name" = None →
  TestScript.from_dict d = inr script →
  ScriptParser.validate_script script = inr errors →
  TestScript.name script = VStr "Unnamed Test" ∧
  text "Script must have a name" ∉ errors.
Proof.
  intros Hd Hfrom Hval. unfold TestScript.from_dict in Hfrom.
  destruct (py_iter _) as [? | items]; [done |].
  destruct (make_steps items) as [? | sts]; [done |].
  assert (Hn : dict_get d "name" (VStr "Unnamed Test") = VStr "Unnamed Test")
    by (unfold dict_get; by rewrite Hd).
  injection Hfrom as <-. simpl. split; [done |].
  unfold ScriptParser.validate_script in Hval. simpl in Hval.
  rewrite Hn in Hval. simpl in Hval.
  apply validate_steps_appends in Hval as (added & -> & Hadded).
  intros Hin. apply elem_of_app in Hin as [Hin | Hin].
  - destruct sts; simpl in Hin.
    + apply list_elem_of_singleton in Hin. discriminate.
    + by apply not_elem_of_nil in Hin.
  - rewrite Forall_forall in Hadded.
    destruct (Hadded _ Hin) as [rest Hrest]. discriminate.
Qed.

(** C1, as stated, fails: a document without a [name] key and with a
    valid step is named by default, validates with an empty error list,
    and validate mode returns 0. *)
Lemma validate_mode_missing_name_counterexample :
  let files : gmap string pyval := {[ "t1.yaml" := VDict nameless_document ]} in
  let env := stub files never_fails in
  nameless_document !! "name" = None ∧
  (∃ script,
     run env (ScriptParser.parse_file "t1.yaml") 0%Z = (2%Z, inr script) ∧
     TestScript.name script = VStr "Unnamed Test" ∧
     ScriptParser.validate_script script = inr []) ∧
  run env (main (mkArguments ["t1.yaml"] true false "chromium" true)) 0%Z
  = (2%Z, inr (Returned 0%Z)).
Proof.
  split; [by vm_compute |]. split.
  - eexists. split; [vm_compute; reflexivity |].
    split; by vm_compute.
  - by vm_compute.
Qed.

(** C1, amended: in validate-only mode, running on a script whose YAML
    file gives [name] an empty value (an empty string, null, ...) makes
    [main] return status 1, and the validation error list for that
    script contains the message "Script must have a name". (A script
    that only lacks the key is named "Unnamed Test", see
    [missing_name_defaults].) *)
Theorem validate_mode_empty_name {W : Type} (env : environment W)
  (w w1 w2 : W) (path : string) (d : gmap string pyval) (v : pyval)
  (script : TestScript.t) (errors : list msg)
  (headless_flag headed : bool) (browser : string) :
  env (PathExists path) w = (w1, inr true) →
  env (SafeLoad path) w1 = (w2, inr (VDict d)) →
  d !! "name" = Some v →
  truthy v = false →
  TestScript.from_dict d = inr script →
  ScriptParser.validate_script script = inr errors →
  text "Script must have a name" ∈ errors ∧
  run env (main (mkArguments [path] headless_flag headed browser true)) w
  = (w2, inr (Returned 1%Z)).
Proof.
  intros H1 H2 Hd Hv Hfrom Hval.
  assert (Hname : TestScript.name script = v).
  { unfold TestScript.from_dict in Hfrom.
    destruct (py_iter _) as [? | items]; [done |].
    destruct (make_steps items) as [? | sts]; [done |].
    injection Hfrom as <-. simpl. unfold dict_get. by rewrite Hd. }
  assert (Hin : text "Script must have a name" ∈ errors).
  { unfold ScriptParser.validate_script in Hval.
    rewrite Hname, Hv in Hval. simpl in Hval.
    apply validate_steps_appends in Hval as (added & -> & _).
    apply elem_of_app. left.
    destruct (TestScript.steps script); simpl.
    - apply elem_of_cons. by left.
    - apply list_elem_of_singleton. done. }
  split; [done |].
  unfold main. cbn [validate scripts validate_loop].
  run_bind. run_bind. rewrite run_attempt.
  run_bind. rewrite (run_parse_file env w w1 w2 path d H1 H2).
  rewrite Hfrom. rewrite run_lift, Hval.
  destruct errors as [| m errors']; [by apply not_elem_of_nil in Hin |].
  reflexivity.
Qed.

Lemma validate_mode_empty_name_witness :
  let files : gmap string pyval :=
    {[ "t1.yaml" := VDict empty_name_document ]} in
  text "Script must have a name" ∈ [text "Script must have a name"] ∧
  run (stub files never_fails)
      (main (mkArguments ["t1.yaml"] true false "chromium" true)) 0%Z
  = (2%Z, inr (Returned 1%Z)).
Proof.
  intros files.
  apply (validate_mode_empty_name (stub files never_fails) 0%Z 1%Z 2%Z
           "t1.yaml" empty_name_document (VStr "")
           (TestScript.mk (VStr "") (VStr "") (VStr "http://localhost:5000")
              (VBool true) [navigate_step] (VInt 30000) (VBool true))
           [text "Script must have a name"] true false "chromium").
  - by vm_compute.
  - by vm_compute.
  - by vm_compute.
  - reflexivity.
  - by vm_compute.
  - by vm_compute.
Defined.
(** ** The dispatcher *)

Lemma prog_bind_ret {A B : Type} (f : A → prog B) (a : A) :
  prog_bind f (Ret a) = f a.
Proof. reflexivity. Qed.

Lemma prog_bind_raise {A B : Type} (f : A → prog B) (e : exn) :
  prog_bind f (Raise e) = Raise e.
Proof. reflexivity. Qed.

Lemma trace_call {W : Type} (env : environment W) (c : ext) (w : W) :
  trace env (call c) w = [c].
Proof.
  unfold call.
  change (trace env (Vis c ?k) w)
    with (let '(w', r) := env c w in c :: trace env (k r) w').
  by destruct (env c w) as [w' [e | v]].
Qed.

Lemma trace_then_silent {W A B : Type} (env : environment W) (p : prog A)
  (g : A → prog B) (w : W) :
  (∀ a w', trace env (g a) w' = []) →
  trace env (prog_bind g p) w = trace env p w.
Proof.
  intros Hg. rewrite trace_prog_bind.
  destruct (run env p w) as [w' [e | a]]; [| rewrite Hg]; apply app_nil_r.
Qed.

Ltac resolve_getattr :=
  match goal with
  | |- context [BrowserActions.getattr ?self ?name] =>
      let g := eval cbv [BrowserActions.getattr String.eqb Ascii.eqb Bool.eqb]
                 in (BrowserActions.getattr self name) in
      change (BrowserActions.getattr self name) with g
  end.

Create HintDb methods.
#[local] Hint Unfold BrowserActions.navigate BrowserActions.click
  BrowserActions.type BrowserActions.wait_for_selector
  BrowserActions.assert_text BrowserActions.assert_visible
  BrowserActions.screenshot BrowserActions.select_option
  BrowserActions.check BrowserActions.uncheck BrowserActions.hover
  BrowserActions.press BrowserActions.evaluate_js BrowserActions.wait
  BrowserActions.count_elements BrowserActions.assert_count
  BrowserActions.assert_min_count BrowserActions.get_text : methods.

Lemma trace_bind_call {W A : Type} (env : environment W) (c : ext)
  (k : resp c → prog A) (w : W) :
  trace env (prog_bind k (call c)) w =
  c :: match env c w with
       | (w', inr v) => trace env (k v) w'
       | (_, inl _) => []
       end.
Proof.
  rewrite trace_prog_bind, trace_call, run_call.
  by destruct (env c w) as [w' [e | v]].
Qed.

Lemma run_bind_call {W A : Type} (env : environment W) (c : ext)
  (k : resp c → prog A) (w : W) :
  run env (prog_bind k (call c)) w =
  match env c w with
  | (w', inr v) => run env (k v) w'
  | (w', inl e) => (w', inl e)
  end.
Proof.
  rewrite run_prog_bind, run_call.
  by destruct (env c w) as [w' [e | v]].
Qed.

Ltac bind_call :=
  match goal with
  | |- context [prog_bind ?k (call ?c)] =>
      match goal with
      | |- context [trace ?env (prog_bind k (call c)) ?w] =>
          let H := fresh in
          pose proof (trace_bind_call env c k w) as H;
          cbn [resp] in H |- *; rewrite H; clear H
      | |- context [run ?env (prog_bind k (call c)) ?w] =>
          let H := fresh in
          pose proof (run_bind_call env c k w) as H;
          cbn [resp] in H |- *; rewrite H; clear H
      end
  end.

Ltac trace_call :=
  match goal with
  | |- context [trace ?env (call ?c) ?w] =>
      let H := fresh in
      pose proof (trace_call env c w) as H;
      cbn [resp] in H |- *; rewrite H; clear H
  end.

Lemma upload_file_trace {W : Type} (env : environment W) (w : W)
  (self : BrowserActions.t) (selector file_path : pyval)
  (kwargs : gmap string pyval) :
  let p := BrowserActions.upload_file self selector file_path kwargs in
  Forall (fun c => match c with
                   | PageCall _ _ _ kw' => kw' = kwargs
                   | _ => True
                   end) (trace env p w) ∧
  (∀ w' r, run env p w = (w', inr r) →
     ∃ pg m args, PageCall pg m args kwargs ∈ trace env p w).
Proof.
  intros p. subst p. unfold BrowserActions.upload_file.
  destruct file_path as [| | | fp | |];
    try (split; [by constructor | by intros w' r]).
  unfold mbind, prog_mbind.
  do 2 bind_call.
  destruct (env (Expanduser fp) w) as [w1 [e | path]];
    [split; [by repeat constructor | by intros w' r] |].
  do 2 bind_call.
  destruct (env (PathExists path) w1) as [w2 [e | found]];
    [split; [by repeat constructor | by intros w' r] |].
  destruct found; cbn [negb];
    [| split; [by repeat constructor | by intros w' r]].
  do 2 bind_call.
  destruct (env (Absolute path) w2) as [w3 [e | abs]];
    [split; [by repeat constructor | by intros w' r] |].
  rewrite trace_then_silent by done. trace_call.
  split; [by repeat constructor |].
  intros _ _ _. eexists _, _, _.
  do 3 apply list_elem_of_further. apply list_elem_of_here.
Qed.

(** Case analysis on the action name, up to the call of the method
    found with its arguments bound. *)
Ltac dispatch_cases Ha Hreg kw :=
  repeat (apply elem_of_cons in Ha as [-> | Ha]);
    [.. | by apply not_elem_of_nil in Ha];
    vm_compute in Hreg; injection Hreg as <-;
    repeat match goal with
      | H : Forall _ (_ :: _) |- _ => apply Forall_cons in H as [[? ?] H]
      end;
    resolve_getattr; cbv beta iota;
    unfold BrowserActions.invoke, bind1, bind2;
    repeat match goal with H : kw !! _ = _ |- _ => rewrite H end;
    cbn [lift]; unfold mbind, prog_mbind; rewrite prog_bind_ret; cbv beta iota.

Ltac ignoring_case env :=
  rewrite trace_then_silent by done;
  autounfold with methods; unfold mbind, prog_mbind;
  repeat first
    [ rewrite trace_then_silent by done; trace_call
    | progress rewrite ?prog_bind_ret, ?prog_bind_raise
    | bind_call;
      match goal with
      | |- context [env ?c ?w] => destruct (env c w) as [? [? | ?]]
      end
    | match goal with
      | |- context [lift ?r] => destruct r; cbn [lift]
      | |- context [if ?b then _ else _] => destruct b
      end ];
  repeat constructor.

(** C3, as stated, fails: [wait] is a registered action, the step below
    supplies its required [ms] and one extra parameter, and the only
    driver call made receives no keyword argument. *)
Lemma wait_drops_extras_counterexample :
  let kw : gmap string pyval := {[ "ms" := VInt 100; "slow" := VBool true ]} in
  let p := BrowserActions.execute_action (BrowserActions.mk 7%N) (VStr "wait")
             (VDict kw) in
  ScriptParser.valid_actions !! "wait" = Some ["ms"] ∧
  kw !! "slow" = Some (VBool true) ∧
  trace (stub ∅ never_fails) p 0%Z
  = [PageCall 7%N WaitForTimeout [VInt 100] ∅] ∧
  run (stub ∅ never_fails) p 0%Z = (1%Z, inr ()).
Proof. repeat split; by vm_compute. Qed.

(** C3, amended: for the fourteen actions [forwarding_actions] and
    every parameter mapping that contains the action's required
    parameters plus arbitrary extras (none of them named [self], nor
    [path] for [screenshot]), every browser-driver call the dispatch
    makes receives every extra parameter unchanged, and the call is
    made (for [upload_file]: whenever the dispatch returns; it raises
    beforehand if the file does not exist). For the five actions
    [ignoring_actions] the extras are accepted and not forwarded. *)
Theorem dispatch_forwards_extras {W : Type} (env : environment W) (w : W)
  (self : BrowserActions.t) (a : string) (required : list string)
  (kw : gmap string pyval) :
  ScriptParser.valid_actions !! a = Some required →
  Forall (fun p => is_Some (kw !! p)) required →
  kw !! "self" = None →
  (a = "screenshot" → kw !! "path" = None) →
  let p := BrowserActions.execute_action self (VStr a) (VDict kw) in
  (a ∈ forwarding_actions →
   Forall (forwards required kw) (trace env p w) ∧
   ((a ≠ "upload_file" ∨ ∃ w', run env p w = (w', inr ())) →
    ∃ pg m args kw', PageCall pg m args kw' ∈ trace env p w)) ∧
  (a ∈ ignoring_actions → Forall carries_nothing (trace env p w)).
Proof.
  intros Hreg Hreq Hself Hpath p. subst p.
  unfold BrowserActions.execute_action.
  cbn [pysize BrowserActions.execute_action_rec].
  split; intros Ha;
    [| unfold ignoring_actions in Ha; dispatch_cases Ha Hreg kw;
       ignoring_case env].
  unfold forwarding_actions in Ha.
  dispatch_cases Ha Hreg kw.
  all: rewrite trace_then_silent by done.
  all: autounfold with methods; unfold mbind, prog_mbind.
  all: try (rewrite trace_then_silent by done; rewrite trace_call).
  all: try (split;
    [ constructor; [| constructor]; intros k v Hk Hkv; cbn;
      rewrite !not_elem_of_cons in Hk; destruct_and?;
      first [ by rewrite !lookup_delete_ne by done
            | destruct (decide (k = "timeout")) as [-> | ?];
              [ rewrite lookup_insert_eq; unfold dict_get;
                rewrite lookup_delete_ne by done; by rewrite Hkv
              | by rewrite lookup_insert_ne, !lookup_delete_ne by done ] ]
    | intros _; eexists _, _, _, _; apply list_elem_of_here ]).
  - (* upload_file *)
    destruct (upload_file_trace env w self x x0
                (delete "file_path" (delete "selector" kw))) as [Hall Hex].
    split.
    + eapply Forall_impl; [exact Hall |].
      intros [] Hc; try done. cbn. subst kw0.
      intros k v Hk Hkv. rewrite !not_elem_of_cons in Hk. destruct_and?.
      by rewrite !lookup_delete_ne by done.
    + intros [Hne | [w' Hrun]]; [done |].
      rewrite run_prog_bind in Hrun.
      destruct (run env _ w) as [w1 [e | r]] eqn:E; [done |].
      destruct (Hex w1 r eq_refl) as (pg & m & args & Hin). eauto.
  - (* screenshot *)
    rewrite lookup_delete_ne by done. rewrite (Hpath eq_refl).
    rewrite trace_then_silent by done. rewrite trace_call.
    split.
    + constructor; [| constructor]. intros k v Hk Hkv. cbn.
      rewrite !not_elem_of_cons in Hk. destruct_and?.
      assert (k ≠ "path")
        by (intros ->; rewrite (Hpath eq_refl) in Hkv; done).
      by rewrite lookup_insert_ne, lookup_delete_ne by done.
    + intros _. eexists _, _, _, _. apply list_elem_of_here.
Qed.

Lemma dispatch_forwards_extras_witness :
  let kw : gmap string pyval :=
    {[ "selector" := VStr "#go"; "force" := VBool true ]} in
  let env := stub ∅ never_fails in
  let p := BrowserActions.execute_action (BrowserActions.mk 7%N) (VStr "click")
             (VDict kw) in
  ("click" ∈ forwarding_actions →
   Forall (forwards ["selector"] kw) (trace env p 0%Z) ∧
   (("click" ≠ "upload_file" ∨ ∃ w', run env p 0%Z = (w', inr ())) →
    ∃ pg m args kw', PageCall pg m args kw' ∈ trace env p 0%Z)) ∧
  ("click" ∈ ignoring_actions → Forall carries_nothing (trace env p 0%Z)).
Proof.
  intros kw env.
  apply (dispatch_forwards_extras env 0%Z (BrowserActions.mk 7%N) "click"
           ["selector"] kw).
  - by vm_compute.
  - constructor; [| constructor]. exists (VStr "#go"). by vm_compute.
  - by vm_compute.
  - discriminate.
Defined.

(** The two lists together are the registry. *)
Lemma registry_actions :
  dom ScriptParser.valid_actions
  = (list_to_set (forwarding_actions ++ ignoring_actions) : gset string).
Proof. by vm_compute. Qed.

(** *** Names the dispatcher resolves *)

(** The names [getattr] resolves are the registered actions, the
    dispatcher itself, [page], and the names of the form [__x]. *)
Lemma getattr_none (self : BrowserActions.t) (name : string) :
  ScriptParser.valid_actions !! name = None →
  name ≠ "execute_action" →
  name ≠ "page" →
  BrowserActions.is_special name = false →
  BrowserActions.getattr self name = None.
Proof.
  intros Hreg Hexec Hpage Hspecial. unfold BrowserActions.getattr.
  repeat match goal with
    | |- context [String.eqb name ?s] =>
        destruct (String.eqb_spec name s) as [-> | _];
          [first [ by vm_compute in Hreg | done ] |]
    end.
  by rewrite Hspecial.
Qed.

(** A name that [getattr] does not resolve is refused as the docstring
    of [execute_action] promises. *)
Lemma execute_action_unknown (self : BrowserActions.t) (name : string)
  (params : pyval) :
  BrowserActions.getattr self name = None →
  BrowserActions.execute_action self (VStr name) params
  = Raise (Exn ValueError [Lit "Unknown action: "; Fmt (VStr name)]).
Proof.
  intros H. unfold BrowserActions.execute_action.
  destruct (pysize params); cbn [BrowserActions.execute_action_rec];
    by rewrite H.
Qed.

Lemma pysize_pos (v : pyval) : (0 < pysize v)%nat.
Proof. destruct v; cbn [pysize]; lia. Qed.

Lemma pysize_lookup (kw : gmap string pyval) (k : string) (v : pyval) :
  kw !! k = Some v → (pysize v < pysize (VDict kw))%nat.
Proof.
  intros H. cbn [pysize].
  rewrite (map_fold_delete_L _ _ k v kw); [lia | intros; lia | done].
Qed.

Lemma bind2_exact_lookup (qualname p1 p2 : string) (kw : gmap string pyval)
  (a b : pyval) :
  bind2_exact qualname p1 p2 kw = inr (a, b) →
  kw !! p1 = Some a ∧ kw !! p2 = Some b.
Proof.
  unfold bind2_exact, bind2.
  destruct (kw !! "self"); [done |].
  destruct (kw !! p1) as [a' |], (kw !! p2) as [b' |]; try done.
  destruct ((map_to_list _).*1); [| done].
  by intros [= <- <-].
Qed.

(** The fuel [execute_action] starts with is never used up: any larger
    amount gives the same program. *)
Lemma execute_action_rec_fuel (self : BrowserActions.t) (n : nat) :
  ∀ m action params,
    (pysize params ≤ n)%nat → (pysize params ≤ m)%nat →
    BrowserActions.execute_action_rec n self action params
    = BrowserActions.execute_action_rec m self action params.
Proof.
  induction n as [| n IH]; intros m action params Hn Hm.
  { pose proof (pysize_pos params). lia. }
  destruct m as [| m]; [pose proof (pysize_pos params); lia |].
  cbn [BrowserActions.execute_action_rec].
  destruct action as [| | | name | |]; try done.
  destruct (BrowserActions.getattr self name) as [method |]; [| done].
  destruct params as [| | | | | kw]; try done.
  destruct method; try done.
  unfold BrowserActions.invoke.
  destruct (bind2_exact _ "action" "params" kw) as [e | [a' p']] eqn:E;
    [done |].
  cbn [lift]. unfold mbind, prog_mbind. rewrite !prog_bind_ret.
  apply bind2_exact_lookup in E as [_ Hp].
  apply pysize_lookup in Hp. apply IH; lia.
Qed.

(** C2: [execute_action] looks the name up among all attributes of the
    dispatcher object, and the registered actions are not the only
    ones. Neither [execute_action] nor [page] is one of the 19
    registered actions, yet for neither the dispatch raises the
    unknown-action error: the first re-enters the dispatcher and clicks,
    the second fails with a [TypeError]. *)
Theorem execute_action_resolves_other_attributes :
  let self := BrowserActions.mk 7%N in
  let env := stub ∅ never_fails in
  let nested :=
    VDict {[ "action" := VStr "click";
             "params" := VDict {[ "selector" := VStr "#a" ]} ]} in
  ScriptParser.valid_actions !! "execute_action" = None ∧
  ScriptParser.valid_actions !! "page" = None ∧
  trace env (BrowserActions.execute_action self (VStr "execute_action") nested)
        0%Z
  = [PageCall 7%N Click [VStr "#a"] ∅] ∧
  run env (BrowserActions.execute_action self (VStr "execute_action") nested)
      0%Z
  = (1%Z, inr ()) ∧
  run env (BrowserActions.execute_action self (VStr "page") (VDict ∅)) 0%Z
  = (0%Z, inl (Exn TypeError (text "'Page' object is not callable"))).
Proof. repeat split; by vm_compute. Qed.

(** ** The execution engine *)

Lemma dispatch_all_app {W : Type} (env : environment W)
  (self : BrowserEngine.t) (l1 l2 : list TestStep.t) (w : W) :
  dispatch_all env self (l1 ++ l2) w
  = dispatch_all env self l1 w ≫= dispatch_all env self l2.
Proof.
  revert w. induction l1 as [| st l1 IH]; intros w; [done |].
  cbn [app dispatch_all].
  destruct (run env (BrowserEngine.dispatch self st) w) as [w' [e | u]];
    [done | apply IH].
Qed.

Lemma fails_at_not_all {W : Type} (env : environment W)
  (self : BrowserEngine.t) (sts pre : list TestStep.t) (w : W)
  (st : TestStep.t) (e : exn) :
  fails_at env self sts w pre st e → dispatch_all env self sts w = None.
Proof.
  intros (post & w1 & w2 & -> & Hpre & Hst).
  rewrite dispatch_all_app, Hpre. cbn. by rewrite Hst.
Qed.

(** The step loop does not raise: what leaves it is reported in its
    value. *)
Lemma run_steps_returns {W : Type} (env : environment W)
  (self : BrowserEngine.t) (script : TestScript.t) (sts : list TestStep.t) :
  ∀ i result w, ∃ w' res exc,
    run env (BrowserEngine.run_steps self script i sts result) w
    = (w', inr (res, exc)).
Proof.
  induction sts as [| st rest IH]; intros i result w.
  { by eexists _, _, _. }
  cbn [BrowserEngine.run_steps]. run_bind. rewrite run_attempt.
  destruct (run env (BrowserEngine.dispatch self st) w) as [w1 [e | u]].
  - destruct (is_Exception e); [| by eexists _, _, _].
    destruct (truthy _); [| by eexists _, _, _].
    run_bind. rewrite run_attempt.
    destruct (run env (BrowserEngine.failure_screenshot self script i) w1)
      as [w2 [e' | path]]; by eexists _, _, _.
  - apply IH.
Qed.

(** When every step returns, the loop counts them all and leaves no
    exception. *)
Lemma run_steps_all {W : Type} (env : environment W)
  (self : BrowserEngine.t) (script : TestScript.t) (sts : list TestStep.t) :
  ∀ i result w w',
    dispatch_all env self sts w = Some w' →
    run env (BrowserEngine.run_steps self script i sts result) w
    = (w', inr (Nat.iter (length sts) TestResult.incr_steps_executed result,
                None)).
Proof.
  induction sts as [| st rest IH]; intros i result w w' H.
  { by injection H as <-. }
  cbn [BrowserEngine.run_steps dispatch_all] in *.
  run_bind. rewrite run_attempt.
  destruct (run env (BrowserEngine.dispatch self st) w) as [w1 [e | u]];
    [done |].
  rewrite (IH _ _ _ _ H). cbn [length]. by rewrite Nat.iter_succ_r.
Qed.

(** Conversely, the loop leaves no exception only when every step
    returned. *)
Lemma run_steps_no_exception {W : Type} (env : environment W)
  (self : BrowserEngine.t) (script : TestScript.t) (sts : list TestStep.t) :
  ∀ i result w w' res,
    run env (BrowserEngine.run_steps self script i sts result) w
    = (w', inr (res, None)) →
    dispatch_all env self sts w = Some w'.
Proof.
  induction sts as [| st rest IH]; intros i result w w' res H.
  { by injection H as <-. }
  cbn [BrowserEngine.run_steps dispatch_all] in *.
  revert H. run_bind. rewrite run_attempt.
  destruct (run env (BrowserEngine.dispatch self st) w) as [w1 [e | u]].
  - destruct (is_Exception e); [| done].
    destruct (truthy _); [| done].
    run_bind. rewrite run_attempt.
    by destruct (run env (BrowserEngine.failure_screenshot self script i) w1)
      as [w2 [e' | path]].
  - apply IH.
Qed.

Lemma iter_incr_fields (n : nat) (r : TestResult.t) :
  TestResult.steps_executed (Nat.iter n TestResult.incr_steps_executed r)
  = (TestResult.steps_executed r + n)%nat ∧
  TestResult.error (Nat.iter n TestResult.incr_steps_executed r)
  = TestResult.error r ∧
  TestResult.passed (Nat.iter n TestResult.incr_steps_executed r)
  = TestResult.passed r.
Proof.
  induction n as [| n (H1 & H2 & H3)]; [by rewrite Nat.add_0_r |].
  rewrite Nat.iter_succ. unfold TestResult.incr_steps_executed at 1 3 5.
  cbn [TestResult.steps_executed TestResult.error TestResult.passed].
  rewrite H1, H2, H3. split; [lia | done].
Qed.

(** At the first failing step the loop stops with the steps before it
    counted; an exception that [except Exception] catches is recorded
    as the error, whatever the handler meets afterwards. *)
Lemma run_steps_first_failure {W : Type} (env : environment W)
  (self : BrowserEngine.t) (script : TestScript.t) (pre : list TestStep.t) :
  ∀ i result w st post w1 w2 e,
    dispatch_all env self pre w = Some w1 →
    run env (BrowserEngine.dispatch self st) w1 = (w2, inl e) →
    ∃ w3 res exc,
      run env (BrowserEngine.run_steps self script i (pre ++ st :: post)
                 result) w
      = (w3, inr (res, Some exc)) ∧
      TestResult.steps_executed res
      = (TestResult.steps_executed result + length pre)%nat ∧
      TestResult.passed res = TestResult.passed result ∧
      (if is_Exception e
       then TestResult.error res
            = Some (BrowserEngine.step_error_msg (i + length pre) st e)
       else exc = e ∧ TestResult.error res = TestResult.error result).
Proof.
  induction pre as [| st0 pre IH]; intros i result w st post w1 w2 e Hpre Hst.
  - injection Hpre as <-. cbn [app BrowserEngine.run_steps length].
    rewrite !Nat.add_0_r.
    run_bind. rewrite run_attempt, Hst.
    destruct (is_Exception e) eqn:He; [| by eexists _, _, _].
    destruct (truthy _); [| by eexists _, _, _].
    run_bind. rewrite run_attempt.
    destruct (run env (BrowserEngine.failure_screenshot self script i) w2)
      as [w3 [e' | path]]; by eexists _, _, _.
  - cbn [app BrowserEngine.run_steps dispatch_all length] in *.
    run_bind. rewrite run_attempt.
    destruct (run env (BrowserEngine.dispatch self st0) w) as [w0 [e0 | u]];
      [done |].
    destruct (IH (S i) (TestResult.incr_steps_executed result) w0 st post
                w1 w2 e Hpre Hst) as (w3 & res & exc & -> & Hn & Hp & He).
    eexists _, _, _. split; [done |].
    cbn in Hn, Hp. split; [lia |]. split; [done |].
    replace (i + S (length pre))%nat with (S i + length pre)%nat by lia.
    done.
Qed.

Lemma run_finally {W : Type} (env : environment W) (result : TestResult.t)
  (pending : option exn) (w : W) :
  run env (BrowserEngine.finally result pending) w =
  match env Now w with
  | (w', inl e) => (w', inl e)
  | (w', inr t1) =>
      match pending with
      | Some e => (w', inl e)
      | None => (w', inr (TestResult.set_end_time t1 result))
      end
  end.
Proof.
  unfold BrowserEngine.finally. run_bind. run_call.
  destruct (env Now w) as [w' [e | t1]]; [done |]. by destruct pending.
Qed.

Lemma run_try_body {W : Type} (env : environment W) (self : BrowserEngine.t)
  (script : TestScript.t) (result : TestResult.t) (w : W) :
  run env (BrowserEngine.try_body self script result) w =
  match run env (BrowserEngine.set_default_timeout self script) w with
  | (wb, inl e) => (wb, inr (result, Some e))
  | (wb, inr _) =>
      match run env (BrowserEngine.run_steps self script 1
                       (TestScript.steps script) result) wb with
      | (wc, inr (res, Some e)) => (wc, inr (res, Some e))
      | (wc, inr (res, None)) =>
          (wc, inr (TestResult.set_passed true res, None))
      | (wc, inl e) => (wc, inl e)
      end
  end.
Proof.
  unfold BrowserEngine.try_body. run_bind. rewrite run_attempt.
  destruct (run env (BrowserEngine.set_default_timeout self script) w)
    as [wb [e | u]]; [done |].
  run_bind.
  destruct (run env (BrowserEngine.run_steps _ _ _ _ _) wb)
    as [wc [e | [res [e |]]]]; done.
Qed.

Lemma run_execute_script {W : Type} (env : environment W)
  (self : BrowserEngine.t) (script : TestScript.t) (w : W) :
  run env (BrowserEngine.execute_script self script) w =
  match env Now w with
  | (wa, inl e) => (wa, inl e)
  | (wa, inr t0) =>
      let result :=
        TestResult.set_steps_total (length (TestScript.steps script))
          (TestResult.set_start_time t0
             (TestResult.init (TestScript.name script))) in
      match run env (BrowserEngine.try_body self script result) wa with
      | (wb, inl e) => (wb, inl e)
      | (wb, inr (result, exc)) =>
          let '(result, pending) :=
            BrowserEngine.except_Exception result exc in
          run env (BrowserEngine.finally result pending) wb
      end
  end.
Proof.
  unfold BrowserEngine.execute_script. run_bind. run_call.
  destruct (env Now w) as [wa [e | t0]]; [done |].
  run_bind.
  destruct (run env (BrowserEngine.try_body _ _ _) wa)
    as [wb [e | [result exc]]]; [done |].
  by destruct (BrowserEngine.except_Exception result exc).
Qed.

(** The message recorded for a failing step is never an empty text. *)
Lemma step_error_msg_truthy (i : nat) (st : TestStep.t) (e : exn) :
  msg_truthy (BrowserEngine.step_error_msg i st e) = true.
Proof. reflexivity. Qed.

(** What a returning run of [execute_script] looks like from inside:
    the stamps, the outcome of the [try] body, and the result built
    from it. *)
Lemma execute_script_returns_inv {W : Type} (env : environment W)
  (self : BrowserEngine.t) (script : TestScript.t) (w w' : W)
  (r : TestResult.t) :
  run env (BrowserEngine.execute_script self script) w = (w', inr r) →
  ∃ t0 wa wb res exc t1,
    env Now w = (wa, inr t0) ∧
    run env (BrowserEngine.try_body self script
               (TestResult.set_steps_total (length (TestScript.steps script))
                  (TestResult.set_start_time t0
                     (TestResult.init (TestScript.name script))))) wa
    = (wb, inr (res, exc)) ∧
    env Now wb = (w', inr t1) ∧
    match exc with
    | None => r = TestResult.set_end_time t1 res
    | Some e =>
        is_Exception e = true ∧
        r = TestResult.set_end_time t1
              (let res' := TestResult.set_passed false res in
               if TestResult.error_unset res'
               then TestResult.set_error (Some (exn_msg e)) res' else res')
    end.
Proof.
  rewrite run_execute_script.
  destruct (env Now w) as [wa [e | t0]] eqn:E0; [done |]. cbv zeta.
  destruct (run env (BrowserEngine.try_body _ _ _) wa)
    as [wb [e | [res exc]]] eqn:E1; [done |].
  unfold BrowserEngine.except_Exception.
  destruct exc as [e |].
  - destruct (is_Exception e) eqn:He; rewrite run_finally;
      destruct (env Now wb) as [wc [e' | t1]] eqn:E2; try done.
    intros [= <- <-]. by eexists t0, wa, wb, res, (Some e), t1.
  - rewrite run_finally.
    destruct (env Now wb) as [wc [e' | t1]] eqn:E2; [done |].
    intros [= <- <-]. by eexists t0, wa, wb, res, None, t1.
Qed.

Lemma init_phase_inv {W : Type} (env : environment W)
  (self : BrowserEngine.t) (script : TestScript.t) (w wa wb : W)
  (t0 : Z) (o : exn + ()) :
  env Now w = (wa, inr t0) →
  init_phase env self script w = Some (wb, o) →
  run env (BrowserEngine.set_default_timeout self script) wa = (wb, o).
Proof. unfold init_phase. intros ->. by intros [= ->]. Qed.

(** What a returning run records when a step fails. *)
Lemma execute_script_step_failure {W : Type} (env : environment W)
  (self : BrowserEngine.t) (script : TestScript.t) (w w' wb : W)
  (r : TestResult.t) (pre : list TestStep.t) (st : TestStep.t) (e : exn) :
  run env (BrowserEngine.execute_script self script) w = (w', inr r) →
  init_phase env self script w = Some (wb, inr ()) →
  fails_at env self (TestScript.steps script) wb pre st e →
  TestResult.error r
  = Some (BrowserEngine.step_error_msg (S (length pre)) st e) ∧
  TestResult.steps_executed r = length pre ∧
  TestResult.passed r = false.
Proof.
  intros Hrun Hinit (post & w1 & w2 & Hsteps & Hpre & Hst).
  apply execute_script_returns_inv in Hrun
    as (t0 & wa & wb' & res & exc & t1 & Hnow & Hbody & Hend & Hr).
  apply (init_phase_inv _ _ _ _ _ _ _ _ Hnow) in Hinit.
  rewrite run_try_body, Hinit, Hsteps in Hbody.
  match type of Hbody with
  | context [BrowserEngine.run_steps self script 1 _ ?r0] =>
      destruct (run_steps_first_failure env self script pre 1 r0 wb st post
                  w1 w2 e Hpre Hst)
        as (w3 & res' & exc' & Hloop & Hn & Hp & He)
  end.
  rewrite Hloop in Hbody. injection Hbody as <- <- <-.
  destruct Hr as [Hexc ->]. cbv zeta.
  cbn [TestResult.steps_executed TestResult.init TestResult.set_start_time
       TestResult.set_steps_total TestResult.passed] in Hn, Hp.
  destruct (is_Exception e) eqn:Hcaught.
  - assert (TestResult.error_unset (TestResult.set_passed false res') = false)
      as ->.
    { unfold TestResult.error_unset. cbn. rewrite He.
      by rewrite step_error_msg_truthy. }
    cbn. done.
  - destruct He as [-> _]. congruence.
Qed.

(** C5: the error of the returned result is the message of the first
    failure, whatever is raised later in the same run (by the
    screenshot of the failure handler, for one). *)
Theorem error_is_first_failure {W : Type} (env : environment W)
  (self : BrowserEngine.t) (script : TestScript.t) (w w' : W)
  (r : TestResult.t) (m : msg) :
  run env (BrowserEngine.execute_script self script) w = (w', inr r) →
  first_failure_message env self script w m →
  TestResult.error r = Some m.
Proof.
  intros Hrun [(wb & pre & st & e & Hinit & Hfail & ->)
              | (wb & e & Hinit & ->)].
  - by destruct (execute_script_step_failure env self script w w' wb r
                   pre st e Hrun Hinit Hfail).
  - apply execute_script_returns_inv in Hrun
      as (t0 & wa & wb' & res & exc & t1 & Hnow & Hbody & Hend & Hr).
    apply (init_phase_inv _ _ _ _ _ _ _ _ Hnow) in Hinit.
    rewrite run_try_body, Hinit in Hbody. injection Hbody as <- <- <-.
    by destruct Hr as [_ ->].
Qed.

(** C6: when a step fails, [steps_executed] is the number of steps
    that returned before it. *)
Theorem steps_executed_counts_prior_steps {W : Type} (env : environment W)
  (self : BrowserEngine.t) (script : TestScript.t) (w w' wb : W)
  (r : TestResult.t) (pre : list TestStep.t) (st : TestStep.t) (e : exn) :
  run env (BrowserEngine.execute_script self script) w = (w', inr r) →
  init_phase env self script w = Some (wb, inr ()) →
  fails_at env self (TestScript.steps script) wb pre st e →
  TestResult.steps_executed r = length pre.
Proof.
  intros Hrun Hinit Hfail.
  by destruct (execute_script_step_failure env self script w w' wb r
                 pre st e Hrun Hinit Hfail) as (_ & ? & _).
Qed.

(** C7: the returned result has passed exactly when nothing escaped
    the Init phase and every step was dispatched without raising. *)
Theorem passed_iff_all_steps_returned {W : Type} (env : environment W)
  (self : BrowserEngine.t) (script : TestScript.t) (w w' : W)
  (r : TestResult.t) :
  run env (BrowserEngine.execute_script self script) w = (w', inr r) →
  TestResult.passed r = true ↔
  ∃ wb wc,
    init_phase env self script w = Some (wb, inr ()) ∧
    dispatch_all env self (TestScript.steps script) wb = Some wc.
Proof.
  intros Hrun.
  apply execute_script_returns_inv in Hrun
    as (t0 & wa & wb & res & exc & t1 & Hnow & Hbody & Hend & Hr).
  rewrite run_try_body in Hbody. unfold init_phase. rewrite Hnow.
  destruct (run env (BrowserEngine.set_default_timeout self script) wa)
    as [w0 [e | []]] eqn:Hinit.
  - injection Hbody as <- <- <-. destruct Hr as [_ ->]. split.
    + cbv zeta. by case_match.
    + by intros (? & ? & [=] & _).
  - destruct (run_steps_returns env self script (TestScript.steps script) 1
                (TestResult.set_steps_total (length (TestScript.steps script))
                   (TestResult.set_start_time t0
                      (TestResult.init (TestScript.name script)))) w0)
      as (w1 & res' & exc' & Hloop).
    rewrite Hloop in Hbody. destruct exc' as [e |].
    + injection Hbody as <- <- <-. destruct Hr as [_ ->]. split.
      * cbv zeta. by case_match.
      * intros (? & wc & [= <-] & Hall).
        apply (run_steps_all env self script _ 1
                 (TestResult.set_steps_total
                    (length (TestScript.steps script))
                    (TestResult.set_start_time t0
                       (TestResult.init (TestScript.name script))))) in Hall.
        congruence.
    + injection Hbody as <- <- <-. subst r. split; [| done].
      intros _. apply run_steps_no_exception in Hloop. eauto.
Qed.

(** C10, amended: on an engine whose page accepts the script's timeout,
    a script without steps passes vacuously. *)
Theorem execute_script_no_steps {W : Type} (env : environment W)
  (self : BrowserEngine.t) (script : TestScript.t) (w wb wc : W) (t1 : Z) :
  TestScript.steps script = [] →
  init_phase env self script w = Some (wb, inr ()) →
  env Now wb = (wc, inr t1) →
  ∃ r,
    run env (BrowserEngine.execute_script self script) w = (wc, inr r) ∧
    TestResult.passed r = true ∧
    TestResult.error r = None ∧
    TestResult.steps_executed r = 0%nat ∧
    TestResult.steps_total r = 0%nat.
Proof.
  intros Hsteps Hinit Hend. rewrite run_execute_script.
  unfold init_phase in Hinit.
  destruct (env Now w) as [wa [e | t0]]; [done |].
  injection Hinit as Hinit. cbv zeta.
  rewrite run_try_body, Hinit, Hsteps.
  cbn [BrowserEngine.run_steps]. rewrite run_ret.
  cbn [BrowserEngine.except_Exception]. rewrite run_finally, Hend.
  eexists. split; [done |]. done.
Qed.

Lemma scenario_B_run :
  run (stub ∅ assertion_and_screenshot_fail)
      (BrowserEngine.execute_script started_engine scenario_B) 0%Z
  = (6%Z, inr scenario_B_result).
Proof. by vm_compute. Qed.

Lemma scenario_B_fails_at :
  fails_at (stub ∅ assertion_and_screenshot_fail) started_engine
    (TestScript.steps scenario_B) 2%Z [click_step] assert_text_step
    text_mismatch.
Proof. exists [], 3%Z, 4%Z. repeat split; by vm_compute. Qed.

Lemma error_is_first_failure_witness :
  TestResult.error scenario_B_result
  = Some (BrowserEngine.step_error_msg 2 assert_text_step text_mismatch).
Proof.
  apply (error_is_first_failure (stub ∅ assertion_and_screenshot_fail)
           started_engine scenario_B 0%Z 6%Z).
  - exact scenario_B_run.
  - left. exists 2%Z, [click_step], assert_text_step, text_mismatch.
    split; [by vm_compute |]. split; [exact scenario_B_fails_at | done].
Defined.

Lemma steps_executed_counts_prior_steps_witness :
  TestResult.steps_executed scenario_B_result = length [click_step].
Proof.
  apply (steps_executed_counts_prior_steps
           (stub ∅ assertion_and_screenshot_fail) started_engine scenario_B
           0%Z 6%Z 2%Z scenario_B_result [click_step] assert_text_step
           text_mismatch).
  - exact scenario_B_run.
  - by vm_compute.
  - exact scenario_B_fails_at.
Defined.

Lemma passed_iff_all_steps_returned_witness :
  TestResult.passed scenario_A_result = true ↔
  ∃ wb wc,
    init_phase (stub ∅ never_fails) started_engine scenario_A 0%Z
    = Some (wb, inr ()) ∧
    dispatch_all (stub ∅ never_fails) started_engine
      (TestScript.steps scenario_A) wb = Some wc.
Proof.
  apply (passed_iff_all_steps_returned (stub ∅ never_fails) started_engine
           scenario_A 0%Z 4%Z scenario_A_result).
  by vm_compute.
Defined.

(** C10, as stated, fails: called directly on an engine that was never
    started, [execute_script] cannot apply the timeout, and the script
    without steps does not pass. *)
Lemma execute_script_no_steps_counterexample :
  let r :=
    TestResult.mk (VStr "empty") false
      (Some (exn_msg (none_has_no_attribute "set_default_timeout")))
      (Some 0%Z) (Some 1%Z) 0 0 [] in
  TestScript.steps no_steps = [] ∧
  run (stub ∅ never_fails)
      (BrowserEngine.execute_script
         (BrowserEngine.init (VBool true) "chromium") no_steps) 0%Z
  = (2%Z, inr r) ∧
  TestResult.passed r ≠ true ∧
  TestResult.error r ≠ None.
Proof. repeat split; by vm_compute. Qed.

Lemma execute_script_no_steps_witness :
  ∃ r,
    run (stub ∅ never_fails)
        (BrowserEngine.execute_script started_engine no_steps) 0%Z
    = (3%Z, inr r) ∧
    TestResult.passed r = true ∧
    TestResult.error r = None ∧
    TestResult.steps_executed r = 0%nat ∧
    TestResult.steps_total r = 0%nat.
Proof.
  apply (execute_script_no_steps (stub ∅ never_fails) started_engine no_steps
           0%Z 2%Z 3%Z 2%Z); by vm_compute.
Defined.

(** ** Batches *)

(** A script that does not validate fails to load, like one that cannot
    be read or parsed. *)
Lemma load_script_validation_failure {W : Type} (env : environment W)
  (path : string) (w w1 : W) (script : TestScript.t) (m : msg)
  (errors : list msg) :
  run env (ScriptParser.parse_file path) w = (w1, inr script) →
  ScriptParser.validate_script script = inr (m :: errors) →
  run env (BrowserEngine.load_script path) w
  = (w1, inl (Exn ValueError
                (Lit "Script validation failed:" :: Lit BrowserEngine.newline
                   :: BrowserEngine.bullet_lines (m :: errors)))).
Proof.
  intros Hparse Hval. unfold BrowserEngine.load_script.
  run_bind. rewrite Hparse. run_bind. by rewrite run_lift, Hval.
Qed.

(** A script that fails to load leaves the engine as it was. *)
Lemma run_test_file_load_failure {W : Type} (env : environment W)
  (self : BrowserEngine.t) (path : string) (w w1 : W) (e : exn) :
  run env (BrowserEngine.load_script path) w = (w1, inl e) →
  run env (BrowserEngine.run_test_file self path) w
  = (w1, inr (self, inl e)).
Proof.
  intros H. unfold BrowserEngine.run_test_file.
  run_bind. by rewrite run_attempt, H.
Qed.

(** The results of a batch are those collected before it followed by
    its own. *)
Lemma run_loop_results {W : Type} (env : environment W)
  (paths : list string) :
  ∀ engine acc w,
    run env (run_loop paths engine acc) w =
    match run env (run_loop paths engine []) w with
    | (w', inr (engine', inr rs)) => (w', inr (engine', inr (acc ++ rs)))
    | other => other
    end.
Proof.
  induction paths as [| path rest IH]; intros engine acc w.
  { cbn [run_loop]. by rewrite !run_ret, app_nil_r. }
  cbn [run_loop]. unfold mbind, prog_mbind. rewrite !run_prog_bind.
  destruct (run env (BrowserEngine.run_test_file engine path) w)
    as [w1 [e | [engine1 [e | result]]]]; [done | |].
  - destruct (is_Exception e); [| by rewrite !run_ret].
    rewrite (IH engine1 (acc ++ _)), (IH engine1 ([] ++ _)).
    destruct (run env (run_loop rest engine1 []) w1)
      as [w2 [e' | [engine2 [e' | rs]]]]; try done.
    by rewrite <- app_assoc.
  - rewrite (IH engine1 (acc ++ _)), (IH engine1 ([] ++ _)).
    destruct (run env (run_loop rest engine1 []) w1)
      as [w2 [e' | [engine2 [e' | rs]]]]; try done.
    by rewrite <- app_assoc.
Qed.

(** The loop takes the scripts one after the other: a batch is run by
    running a first part of it, then the rest from the engine, the
    results and the world the first part leaves. *)
Lemma run_loop_app {W : Type} (env : environment W) (pre rest : list string) :
  ∀ engine acc w,
    run env (run_loop (pre ++ rest) engine acc) w =
    match run env (run_loop pre engine acc) w with
    | (w1, inr (engine1, inr acc1)) => run env (run_loop rest engine1 acc1) w1
    | other => other
    end.
Proof.
  induction pre as [| path pre IH]; intros engine acc w.
  { cbn [app run_loop]. by rewrite run_ret. }
  cbn [app run_loop]. unfold mbind, prog_mbind. rewrite !run_prog_bind.
  destruct (run env (BrowserEngine.run_test_file engine path) w)
    as [w1 [e | [engine1 [e | result]]]]; [done | |].
  - destruct (is_Exception e); [apply IH | by rewrite run_ret].
  - apply IH.
Qed.

(** A batch that comes to its end has one result per script. *)
Lemma run_loop_length {W : Type} (env : environment W)
  (paths : list string) :
  ∀ engine acc w w' engine' rs,
    run env (run_loop paths engine acc) w = (w', inr (engine', inr rs)) →
    length rs = (length acc + length paths)%nat.
Proof.
  induction paths as [| path rest IH]; intros engine acc w w' engine' rs.
  { cbn [run_loop]. rewrite run_ret. intros [= <- <- <-]. cbn. lia. }
  cbn [run_loop]. run_bind.
  destruct (run env (BrowserEngine.run_test_file engine path) w)
    as [w1 [e | [engine1 [e | result]]]]; [done | |].
  - destruct (is_Exception e); [| by rewrite run_ret].
    intros H. apply IH in H. rewrite length_app in H. cbn in *. lia.
  - intros H. apply IH in H. rewrite length_app in H. cbn in *. lia.
Qed.

(** C9: a script that fails to load or to validate yields a result
    with [passed] false and [error] set, and the rest of the batch
    runs as a batch of its own would, from the same engine: every
    later script is loaded, validated and executed, with a result of
    its own. *)
Theorem batch_continues_after_load_failure {W : Type} (env : environment W)
  (engine : BrowserEngine.t) (results : list TestResult.t) (w w1 : W)
  (path : string) (rest : list string) (e : exn) :
  run env (BrowserEngine.load_script path) w = (w1, inl e) →
  is_Exception e = true →
  let failed :=
    TestResult.set_error (Some (exn_msg e)) (TestResult.init (VStr path)) in
  TestResult.passed failed = false ∧
  TestResult.error failed = Some (exn_msg e) ∧
  run env (run_loop (path :: rest) engine results) w =
  match run env (run_loop rest engine []) w1 with
  | (w2, inr (engine', inr rs)) =>
      (w2, inr (engine', inr (results ++ failed :: rs)))
  | other => other
  end.
Proof.
  intros Hload He failed. split; [done |]. split; [done |].
  cbn [run_loop]. run_bind.
  rewrite (run_test_file_load_failure env engine path w w1 e Hload), He.
  rewrite run_loop_results.
  destruct (run env (run_loop rest engine []) w1)
    as [w2 [e' | [engine2 [e' | rs]]]]; try done.
  by rewrite <- app_assoc.
Qed.

Lemma batch_continues_after_load_failure_witness :
  let env := stub scenario_D_files never_fails in
  let engine := BrowserEngine.init (VBool true) "chromium" in
  let failed :=
    TestResult.set_error (Some (exn_msg missing_file))
      (TestResult.init (VStr "missing.yaml")) in
  TestResult.passed failed = false ∧
  TestResult.error failed = Some (exn_msg missing_file) ∧
  run env (run_loop ["missing.yaml"; "t1.yaml"] engine []) 0%Z =
  match run env (run_loop ["t1.yaml"] engine []) 1%Z with
  | (w2, inr (engine', inr rs)) => (w2, inr (engine', inr ([] ++ failed :: rs)))
  | other => other
  end.
Proof.
  intros env engine.
  apply (batch_continues_after_load_failure env engine [] 0%Z 1%Z
           "missing.yaml" ["t1.yaml"] missing_file).
  - by vm_compute.
  - reflexivity.
Defined.

(** In Scenario D the second script runs and passes, and the run as a
    whole exits with status 1. *)
Lemma scenario_D_run :
  let env := stub scenario_D_files never_fails in
  (∃ w engine failed second,
     run env (run_loop ["missing.yaml"; "t1.yaml"]
                (BrowserEngine.init (VBool true) "chromium") []) 0%Z
     = (w, inr (engine, inr [failed; second])) ∧
     TestResult.passed failed = false ∧
     TestResult.error failed = Some (exn_msg missing_file) ∧
     TestResult.script_name second = VStr "t1" ∧
     TestResult.passed second = true ∧
     TestResult.steps_executed second = 1%nat) ∧
  run env (main (mkArguments ["missing.yaml"; "t1.yaml"] true false
                   "chromium" false)) 0%Z
  = (14%Z, inr (Exited 1%Z)).
Proof.
  split.
  - eexists _, _, _, _. split; [by vm_compute |]. repeat split.
  - by vm_compute.
Qed.

(** * Further properties *)

(** ** The validator, step by step *)

Lemma validate_steps_app (l1 l2 : list TestStep.t) :
  ∀ i errors,
    ScriptParser.validate_steps i (l1 ++ l2) errors =
    match ScriptParser.validate_steps i l1 errors with
    | inl e => inl e
    | inr errors1 =>
        ScriptParser.validate_steps (i + length l1) l2 errors1
    end.
Proof.
  induction l1 as [| st l1 IH]; intros i errors.
  { cbn. by rewrite Nat.add_0_r. }
  cbn [app ScriptParser.validate_steps length].
  replace (i + S (length l1))%nat with (S i + length l1)%nat by lia.
  destruct (ScriptParser.registry_lookup _) as [e | [required |]];
    [done | | apply IH].
  destruct (ScriptParser.missing_params _ _); apply IH.
Qed.

Lemma validate_steps_length (sts : list TestStep.t) :
  ∀ i errors errors',
    ScriptParser.validate_steps i sts errors = inr errors' →
    (length errors ≤ length errors' ≤ length errors + length sts)%nat.
Proof.
  induction sts as [| st sts IH]; intros i errors errors' H; cbn in H.
  { injection H as <-. cbn. lia. }
  destruct (ScriptParser.registry_lookup _) as [e | [required |]];
    [done | |].
  - destruct (ScriptParser.missing_params _ _); apply IH in H;
      rewrite ?length_app in H; cbn in *; lia.
  - apply IH in H. rewrite length_app in H. cbn in *. lia.
Qed.

Lemma registry_lookup_Some (a : pyval) (required : list string) :
  ScriptParser.registry_lookup a = inr (Some required) →
  ∃ s, a = VStr s ∧ ScriptParser.valid_actions !! s = Some required.
Proof.
  destruct a; cbn; try done. intros [= H]. eauto.
Qed.

Lemma missing_params_nil_inv (required : list string)
  (ps : gmap string pyval) :
  ScriptParser.missing_params required ps = [] →
  Forall (fun p => is_Some (ps !! p)) required.
Proof.
  unfold ScriptParser.missing_params.
  induction required as [| p l IH]; [constructor |].
  rewrite filter_cons. destruct (decide (ps !! p = None)) as [? | Hp];
    [done |].
  intros H. constructor; [| by apply IH].
  by destruct (ps !! p); [eexists |].
Qed.

Lemma validate_steps_unchanged (sts : list TestStep.t) :
  ∀ i errors,
    ScriptParser.validate_steps i sts errors = inr errors →
    Forall step_complete sts.
Proof.
  induction sts as [| st sts IH]; intros i errors H; [constructor |].
  cbn in H.
  destruct (ScriptParser.registry_lookup _) as [e | [required |]] eqn:Hreg;
    [done | |].
  - destruct (ScriptParser.missing_params _ _) eqn:Hmiss.
    + constructor; [| by eapply IH].
      apply registry_lookup_Some in Hreg as (s & Hs & Hr).
      exists s, required. by auto using missing_params_nil_inv.
    + apply validate_steps_length in H. rewrite length_app in H. cbn in H. lia.
  - apply validate_steps_length in H. rewrite length_app in H. cbn in H. lia.
Qed.

(** X1: the validator returns the empty list exactly for the scripts
    with a name, at least one step, and steps that are all known and
    complete. *)
Theorem validate_script_empty_iff (script : TestScript.t) :
  ScriptParser.validate_script script = inr [] ↔
  truthy (TestScript.name script) = true ∧
  TestScript.steps script ≠ [] ∧
  Forall step_complete (TestScript.steps script).
Proof.
  unfold ScriptParser.validate_script. split.
  - intros H. pose proof (validate_steps_length _ _ _ _ H) as Hlen.
    destruct (truthy (TestScript.name script));
      [| cbn in Hlen; destruct (TestScript.steps script);
         rewrite ?length_app in Hlen; cbn in Hlen; lia].
    destruct (TestScript.steps script) as [| st sts] eqn:E;
      [cbn in Hlen; lia |].
    split; [done |]. split; [done |]. by eapply validate_steps_unchanged.
  - intros (-> & Hne & Hall).
    destruct (TestScript.steps script) as [| st sts]; [done |].
    by apply validate_steps_complete.
Qed.

Lemma registry_lookup_unhashable (a : pyval) :
  (∃ e, ScriptParser.registry_lookup a = inl e) ↔ unhashable a.
Proof. destruct a; cbn; split; try done; try (by intros [? ?]); eauto. Qed.

Lemma validate_steps_raises_iff (sts : list TestStep.t) :
  ∀ i errors,
    (∃ e, ScriptParser.validate_steps i sts errors = inl e) ↔
    Exists (fun st => unhashable (TestStep.action st)) sts.
Proof.
  induction sts as [| st sts IH]; intros i errors.
  { cbn. split; [by intros [? ?] | by intros ?%Exists_nil]. }
  cbn [ScriptParser.validate_steps]. rewrite Exists_cons.
  rewrite <- (registry_lookup_unhashable (TestStep.action st)).
  destruct (ScriptParser.registry_lookup _) as [e | [required |]].
  - split; eauto.
  - destruct (ScriptParser.missing_params _ _); rewrite IH;
      split; [by right | by intros [[? ?] | ?] | by right
             | by intros [[? ?] | ?]].
  - rewrite IH. split; [by right | by intros [[? ?] | ?]].
Qed.

(** X2: the validator raises exactly when the action of some step is a
    list or a mapping, which cannot be looked up in the registry; on
    every other script it returns its list of errors. *)
Theorem validate_script_raises_iff (script : TestScript.t) :
  (∃ e, ScriptParser.validate_script script = inl e) ↔
  Exists (fun st => unhashable (TestStep.action st))
         (TestScript.steps script).
Proof. apply validate_steps_raises_iff. Qed.

(** X3: an action that is not in the registry is reported with the
    1-based index of its step. *)
Theorem validate_reports_unknown_action (script : TestScript.t)
  (pre post : list TestStep.t) (st : TestStep.t) (errors : list msg) :
  TestScript.steps script = pre ++ st :: post →
  ScriptParser.registry_lookup (TestStep.action st) = inr None →
  ScriptParser.validate_script script = inr errors →
  unknown_action_msg (S (length pre)) st ∈ errors.
Proof.
  intros Hsteps Hreg. unfold ScriptParser.validate_script.
  cbv zeta. rewrite Hsteps, validate_steps_app.
  destruct (ScriptParser.validate_steps 1 pre _) as [e | errors1]; [done |].
  cbn [ScriptParser.validate_steps]. rewrite Hreg. intros H.
  apply validate_steps_appends in H as (added & -> & _).
  apply elem_of_app. left. apply elem_of_app. right.
  apply list_elem_of_singleton. done.
Qed.

(** X4: a known action with parameters missing is reported with the
    index of its step and the list of exactly the required parameters
    that the step does not supply. *)
Theorem validate_reports_missing_params (script : TestScript.t)
  (pre post : list TestStep.t) (st : TestStep.t) (a : string)
  (required : list string) (errors : list msg) :
  TestScript.steps script = pre ++ st :: post →
  TestStep.action st = VStr a →
  ScriptParser.valid_actions !! a = Some required →
  ¬ Forall (fun p => is_Some (TestStep.params st !! p)) required →
  ScriptParser.validate_script script = inr errors →
  missing_params_msg (S (length pre)) st
    (filter (fun p => TestStep.params st !! p = None) required)
  ∈ errors.
Proof.
  intros Hsteps Ha Hreg Hmiss. unfold ScriptParser.validate_script.
  cbv zeta. rewrite Hsteps, validate_steps_app.
  destruct (ScriptParser.validate_steps 1 pre _) as [e | errors1]; [done |].
  cbn [ScriptParser.validate_steps]. rewrite Ha.
  cbn [ScriptParser.registry_lookup]. rewrite Hreg.
  unfold ScriptParser.missing_params.
  destruct (filter _ required) as [| m ms] eqn:Hf.
  { destruct Hmiss. by apply missing_params_nil_inv. }
  intros H. apply validate_steps_appends in H as (added & -> & _).
  apply elem_of_app. left. apply elem_of_app. right.
  apply list_elem_of_singleton. unfold missing_params_msg. by rewrite Ha.
Qed.

(** X5: the validator reports at most one error per step, besides the
    two about the script as a whole. *)
Theorem validate_error_count (script : TestScript.t) (errors : list msg) :
  ScriptParser.validate_script script = inr errors →
  (length errors ≤ 2 + length (TestScript.steps script))%nat.
Proof.
  unfold ScriptParser.validate_script. intros H.
  apply validate_steps_length in H as [_ H].
  destruct (truthy _), (TestScript.steps script); cbn in *; lia.
Qed.

(** ** Parsing *)

Lemma make_step_inv (item : pyval) (st : TestStep.t) :
  make_step item = inr st →
  item = VDict (<[ "action" := TestStep.action st ]> (TestStep.params st)) ∧
  TestStep.params st !! "action" = None ∧
  TestStep.params st !! "self" = None.
Proof.
  destruct item as [| | | | | d]; try done. cbn.
  destruct (d !! "action") as [a |] eqn:Ha; [| done].
  destruct (delete "action" d !! "self") eqn:Hself; [done |].
  intros [= <-]. cbn. rewrite insert_delete_id by done.
  by rewrite lookup_delete_eq.
Qed.

Lemma make_steps_inv (items : list pyval) :
  ∀ sts, make_steps items = inr sts →
         Forall2 (fun item st => make_step item = inr st) items sts.
Proof.
  induction items as [| item items IH]; intros sts; cbn.
  { intros [= <-]. constructor. }
  destruct (make_step item) as [e | st] eqn:Hst; [done |].
  destruct (make_steps items) as [e | sts']; [done |].
  intros [= <-]. constructor; [done | by apply IH].
Qed.

(** X6: parsing keeps the steps of the document, in order: each step
    is its mapping split into the action and the remaining keys, so
    that putting the action back gives the mapping again; the
    parameters of a parsed step never hold a key [action] or [self]. *)
Theorem from_dict_steps (d : gmap string pyval) (items : list pyval)
  (script : TestScript.t) :
  d !! "steps" = Some (VList items) →
  TestScript.from_dict d = inr script →
  Forall2
    (fun item st =>
       item = VDict (<[ "action" := TestStep.action st ]>
                       (TestStep.params st)) ∧
       TestStep.params st !! "action" = None ∧
       TestStep.params st !! "self" = None)
    items (TestScript.steps script).
Proof.
  intros Hd. unfold TestScript.from_dict, dict_get at 1. rewrite Hd.
  cbn [py_iter].
  destruct (make_steps items) as [e | sts] eqn:E; [done |].
  intros [= <-]. cbn. apply make_steps_inv in E.
  eapply Forall2_impl; [exact E |]. intros item st. apply make_step_inv.
Qed.

Lemma make_steps_app (l1 l2 : list pyval) :
  make_steps (l1 ++ l2) =
  match make_steps l1 with
  | inl e => inl e
  | inr sts1 =>
      match make_steps l2 with
      | inl e => inl e
      | inr sts2 => inr (sts1 ++ sts2)
      end
  end.
Proof.
  induction l1 as [| x l1 IH]; cbn.
  { by destruct (make_steps l2). }
  destruct (make_step x); [done |]. rewrite IH.
  destruct (make_steps l1); [done |]. by destruct (make_steps l2).
Qed.

(** X7: a step without an [action] key makes parsing fail with a
    [KeyError] naming the key, when the steps before it are well
    formed. *)
Theorem from_dict_step_without_action (d m : gmap string pyval)
  (pre post : list pyval) (sts : list TestStep.t) :
  d !! "steps" = Some (VList (pre ++ VDict m :: post)) →
  make_steps pre = inr sts →
  m !! "action" = None →
  TestScript.from_dict d = inl (Exn KeyError (text "'action'")).
Proof.
  intros Hd Hpre Hm. unfold TestScript.from_dict, dict_get at 1.
  rewrite Hd. cbn [py_iter]. rewrite make_steps_app, Hpre.
  cbn [make_steps make_step]. by rewrite Hm.
Qed.

(** X8: a document that has no [steps] key, or an empty list of
    steps, parses to a script without steps, which the validator
    reports. *)
Theorem document_without_steps (d : gmap string pyval) :
  d !! "steps" = None ∨ d !! "steps" = Some (VList []) →
  ∃ script errors,
    TestScript.from_dict d = inr script ∧
    TestScript.steps script = [] ∧
    ScriptParser.validate_script script = inr errors ∧
    text "Script must have at least one step" ∈ errors ∧
    Forall (fun m => ¬ step_message m) errors.
Proof.
  intros Hd.
  assert (dict_get d "steps" (VList []) = VList []) as Hget.
  { unfold dict_get. by destruct Hd as [-> | ->]. }
  unfold TestScript.from_dict. rewrite Hget. cbn [py_iter make_steps].
  eexists _, _. split; [done |]. split; [done |].
  unfold ScriptParser.validate_script.
  cbn [TestScript.steps TestScript.name ScriptParser.validate_steps].
  split; [done |]. split.
  - apply elem_of_app. right. by apply list_elem_of_singleton.
  - destruct (negb _); repeat constructor; by intros [? ?].
Qed.

(** X9: a path that names no file is refused with [FileNotFoundError]
    before anything is opened. *)
Theorem parse_file_missing {W : Type} (env : environment W) (w w1 : W)
  (path : string) :
  env (PathExists path) w = (w1, inr false) →
  run env (ScriptParser.parse_file path) w
  = (w1, inl (Exn FileNotFoundError
                [Lit "Test script not found: "; Lit path])) ∧
  trace env (ScriptParser.parse_file path) w = [PathExists path].
Proof.
  intros H. unfold ScriptParser.parse_file, mbind, prog_mbind.
  do 2 bind_call. by rewrite H.
Qed.

(** X10: a file whose document is not a mapping (a list, a scalar, an
    empty file) is refused with [ValueError]. *)
Theorem parse_file_not_mapping {W : Type} (env : environment W)
  (w w1 w2 : W) (path : string) (data : pyval) :
  env (PathExists path) w = (w1, inr true) →
  env (SafeLoad path) w1 = (w2, inr data) →
  (∀ d, data ≠ VDict d) →
  run env (ScriptParser.parse_file path) w
  = (w2, inl (Exn ValueError
                (text "Test script must be a YAML dictionary"))).
Proof.
  intros H1 H2 Hd. unfold ScriptParser.parse_file, mbind, prog_mbind.
  bind_call. rewrite H1. cbn [negb]. bind_call. rewrite H2.
  destruct data; try done. by destruct (Hd d).
Qed.

(** ** Dispatching registered and other names *)

Lemma registered_cases (a : string) (required : list string) :
  ScriptParser.valid_actions !! a = Some required →
  a ∈ forwarding_actions ++ ignoring_actions.
Proof.
  intros H. apply (elem_of_list_to_set (C := gset string)).
  rewrite <- registry_actions. apply elem_of_dom. by eexists.
Qed.

(** X11: the registry of the validator and the signatures of the
    dispatcher agree: for a registered action, a parameter mapping
    that lacks a required parameter makes the dispatch raise the
    [TypeError] of a call with missing arguments, naming exactly the
    parameters the validator would report, before any driver call. *)
Theorem registered_action_missing_parameter (self : BrowserActions.t)
  (a : string) (required : list string) (kw : gmap string pyval) :
  ScriptParser.valid_actions !! a = Some required →
  kw !! "self" = None →
  ¬ Forall (fun p => is_Some (kw !! p)) required →
  BrowserActions.execute_action self (VStr a) (VDict kw)
  = Raise (missing_arguments (String.append "BrowserActions." a)
             (ScriptParser.missing_params required kw)).
Proof.
  intros Hreg Hself Hmiss.
  pose proof (registered_cases a required Hreg) as Ha.
  unfold BrowserActions.execute_action.
  cbn [pysize BrowserActions.execute_action_rec].
  unfold forwarding_actions, ignoring_actions in Ha. cbn [app] in Ha.
  repeat (apply elem_of_cons in Ha as [-> | Ha]);
    [.. | by apply not_elem_of_nil in Ha];
    vm_compute in Hreg; injection Hreg as <-;
    resolve_getattr; cbv beta iota;
    unfold BrowserActions.invoke, bind1, bind2, ScriptParser.missing_params;
    rewrite Hself;
    rewrite ?filter_cons, ?filter_nil;
    repeat match goal with
      | |- context [kw !! ?p] =>
          lazymatch p with
          | "self" => fail
          | _ => let E := fresh "E" in destruct (kw !! p) eqn:E
          end
      end;
    repeat case_decide; try done;
    destruct Hmiss; repeat constructor; by eexists.
Qed.

(** X12: a name that is neither a registered action, nor
    [execute_action], nor [page], nor of the form [__x], is refused
    with the unknown-action [ValueError], whatever the parameters, and
    without any driver call. *)
Theorem unregistered_name_unknown_action (self : BrowserActions.t)
  (name : string) (params : pyval) :
  ScriptParser.valid_actions !! name = None →
  name ≠ "execute_action" →
  name ≠ "page" →
  BrowserActions.is_special name = false →
  BrowserActions.execute_action self (VStr name) params
  = Raise (Exn ValueError [Lit "Unknown action: "; Fmt (VStr name)]).
Proof.
  intros. by apply execute_action_unknown, getattr_none.
Qed.

(** ** Single actions *)

(** The dispatch of a registered action whose required parameters are
    supplied, up to the call of its method. *)
Ltac dispatch_method self name :=
  unfold BrowserActions.execute_action;
  cbn [pysize BrowserActions.execute_action_rec];
  resolve_getattr; cbv beta iota;
  unfold BrowserActions.invoke, bind1, bind2;
  repeat match goal with H : _ !! _ = _ |- _ => rewrite H end;
  cbn [lift]; unfold mbind, prog_mbind; rewrite prog_bind_ret;
  cbv beta iota.

(** X13: [upload_file] on a path that does not exist raises
    [FileNotFoundError] naming the path as given, and the driver is
    never called: the only events are the two on the file system. *)
Theorem upload_file_not_found {W : Type} (env : environment W) (w w1 w2 : W)
  (self : BrowserActions.t) (kw : gmap string pyval) (selector : pyval)
  (fp path : string) :
  kw !! "self" = None →
  kw !! "selector" = Some selector →
  kw !! "file_path" = Some (VStr fp) →
  env (Expanduser fp) w = (w1, inr path) →
  env (PathExists path) w1 = (w2, inr false) →
  let p := BrowserActions.execute_action self (VStr "upload_file")
             (VDict kw) in
  run env p w
  = (w2, inl (Exn FileNotFoundError
                [Lit "File not found: "; Fmt (VStr fp)])) ∧
  trace env p w = [Expanduser fp; PathExists path].
Proof.
  intros Hself Hsel Hfp H1 H2 p. subst p.
  dispatch_method self "upload_file".
  unfold BrowserActions.upload_file, mbind, prog_mbind.
  rewrite run_prog_bind, trace_then_silent by done.
  do 2 bind_call. rewrite H1. do 2 bind_call. by rewrite H2.
Qed.

(** X14: [count_elements] is an assertion too: it returns when the
    locator matches at least one element and raises [AssertionError]
    when it matches none. *)
Theorem count_elements_asserts {W : Type} (env : environment W) (w w1 : W)
  (self : BrowserActions.t) (kw : gmap string pyval) (selector : pyval)
  (count : Z) :
  kw !! "self" = None →
  kw !! "selector" = Some selector →
  env (LocatorCount (BrowserActions.page self) selector) w
  = (w1, inr count) →
  run env (BrowserActions.execute_action self (VStr "count_elements")
             (VDict kw)) w
  = (w1, if (count =? 0)%Z
         then inl (Exn AssertionError
                     [Lit "Expected at least 1 element matching '";
                      Fmt selector; Lit "', found 0"])
         else inr ()).
Proof.
  intros Hself Hsel H.
  dispatch_method self "count_elements".
  unfold BrowserActions.count_elements, mbind, prog_mbind.
  rewrite run_prog_bind. bind_call. rewrite H.
  by destruct (count =? 0)%Z.
Qed.

(** X15: [assert_count] returns exactly when the locator count equals
    an integer [expected]; an [expected] given as a string (a quoted
    number in the YAML file) never matches. *)
Theorem assert_count_compares {W : Type} (env : environment W) (w w1 : W)
  (self : BrowserActions.t) (kw : gmap string pyval)
  (selector expected : pyval) (count : Z) :
  kw !! "self" = None →
  kw !! "selector" = Some selector →
  kw !! "expected" = Some expected →
  env (LocatorCount (BrowserActions.page self) selector) w
  = (w1, inr count) →
  let p := BrowserActions.execute_action self (VStr "assert_count")
             (VDict kw) in
  (∀ n, expected = VInt n →
        run env p w = (w1, inr ()) ↔ count = n) ∧
  (∀ s, expected = VStr s →
        ∃ e, run env p w = (w1, inl e) ∧ exn_cls e = AssertionError).
Proof.
  intros Hself Hsel Hexp H p. subst p.
  dispatch_method self "assert_count".
  unfold BrowserActions.assert_count, mbind, prog_mbind.
  rewrite run_prog_bind. bind_call. rewrite H. split.
  - intros n ->. cbn [py_eq].
    destruct (Z.eqb_spec count n); cbn [negb]; naive_solver.
  - intros s ->. cbn [py_eq negb]. by eexists.
Qed.

(** X16: [assert_min_count] returns exactly when the locator count is
    at least an integer [minimum]; the bound itself passes. A
    [minimum] that is not a number makes the comparison raise
    [TypeError]. *)
Theorem assert_min_count_compares {W : Type} (env : environment W)
  (w w1 : W) (self : BrowserActions.t) (kw : gmap string pyval)
  (selector minimum : pyval) (count : Z) :
  kw !! "self" = None →
  kw !! "selector" = Some selector →
  kw !! "minimum" = Some minimum →
  env (LocatorCount (BrowserActions.page self) selector) w
  = (w1, inr count) →
  let p := BrowserActions.execute_action self (VStr "assert_min_count")
             (VDict kw) in
  (∀ m, minimum = VInt m →
        run env p w = (w1, inr ()) ↔ (m ≤ count)%Z) ∧
  (∀ s, minimum = VStr s →
        ∃ e, run env p w = (w1, inl e) ∧ exn_cls e = TypeError).
Proof.
  intros Hself Hsel Hmin H p. subst p.
  dispatch_method self "assert_min_count".
  unfold BrowserActions.assert_min_count, mbind, prog_mbind.
  rewrite run_prog_bind. bind_call. rewrite H. split.
  - intros m ->. cbn [int_lt lift]. rewrite prog_bind_ret.
    destruct (Z.ltb_spec count m); split; intros ?;
      first [done | lia].
  - intros s ->. cbn [int_lt lift]. rewrite prog_bind_raise. by eexists.
Qed.

(** X17: [wait_for_selector] always passes a [timeout] keyword to the
    driver: the step's own when it gives one, and 30000 otherwise
    (whatever timeout the script as a whole declares). *)
Theorem wait_for_selector_timeout {W : Type} (env : environment W) (w : W)
  (self : BrowserActions.t) (kw : gmap string pyval) (selector : pyval) :
  kw !! "self" = None →
  kw !! "selector" = Some selector →
  ∃ kw',
    trace env (BrowserActions.execute_action self (VStr "wait_for_selector")
                 (VDict kw)) w
    = [PageCall (BrowserActions.page self) WaitForSelector [selector] kw'] ∧
    kw' !! "timeout" = Some (dict_get kw "timeout" (VInt 30000)).
Proof.
  intros Hself Hsel.
  dispatch_method self "wait_for_selector".
  rewrite trace_then_silent by done.
  unfold BrowserActions.wait_for_selector, mbind, prog_mbind.
  rewrite trace_then_silent by done. trace_call.
  eexists. split; [done |]. rewrite lookup_insert_eq.
  unfold dict_get. by rewrite lookup_delete_ne.
Qed.

(** ** The bookkeeping of [execute_script] *)

Lemma failure_screenshot_path {W : Type} (env : environment W)
  (self : BrowserEngine.t) (script : TestScript.t) (i : nat) (w w' : W)
  (p : string) :
  run env (BrowserEngine.failure_screenshot self script i) w = (w', inr p) →
  ∃ n, TestScript.name script = VStr n ∧ p = failure_path n i.
Proof.
  unfold BrowserEngine.failure_screenshot.
  destruct (TestScript.name script) as [| | | n | |]; try done.
  destruct (BrowserEngine.page self) as [pg |]; [| done].
  unfold mbind, prog_mbind. bind_call.
  destruct (env _ w) as [w1 [e | v]]; [done |].
  rewrite run_ret. intros [= <- <-]. by exists n.
Qed.

Ltac no_shots :=
  exists []; rewrite app_nil_r;
  split_and!;
    [ done | cbn; lia | done
    | let H := fresh in intros ? H; by apply not_elem_of_nil in H ].

(** What the step loop does to the result. *)
Lemma run_steps_fields {W : Type} (env : environment W)
  (self : BrowserEngine.t) (script : TestScript.t) (sts : list TestStep.t) :
  ∀ i result w w' res exc,
    run env (BrowserEngine.run_steps self script i sts result) w
    = (w', inr (res, exc)) →
    TestResult.script_name res = TestResult.script_name result ∧
    TestResult.steps_total res = TestResult.steps_total result ∧
    TestResult.start_time res = TestResult.start_time result ∧
    TestResult.end_time res = TestResult.end_time result ∧
    TestResult.passed res = TestResult.passed result ∧
    (TestResult.steps_executed result ≤ TestResult.steps_executed res
     ≤ TestResult.steps_executed result + length sts)%nat ∧
    (∃ shots,
       TestResult.screenshots res = TestResult.screenshots result ++ shots ∧
       (length shots ≤ 1)%nat ∧
       (truthy (TestScript.screenshot_on_failure script) = false →
        shots = []) ∧
       ∀ p, p ∈ shots →
            ∃ n, TestScript.name script = VStr n ∧
                 p = failure_path n
                       (i + (TestResult.steps_executed res
                             - TestResult.steps_executed result))) ∧
    match exc with
    | None =>
        TestResult.steps_executed res
        = (TestResult.steps_executed result + length sts)%nat ∧
        TestResult.error res = TestResult.error result ∧
        TestResult.screenshots res = TestResult.screenshots result
    | Some _ =>
        (TestResult.steps_executed res
         < TestResult.steps_executed result + length sts)%nat
    end.
Proof.
  induction sts as [| st sts IH]; intros i result w w' res exc.
  { cbn [BrowserEngine.run_steps]. rewrite run_ret. intros [= <- <- <-].
    cbn [length]. split_and!; try done; try lia.
    no_shots. }
  cbn [BrowserEngine.run_steps]. run_bind. rewrite run_attempt.
  destruct (run env (BrowserEngine.dispatch self st) w) as [w1 [e | u]].
  - assert (∀ r : TestResult.t,
              TestResult.steps_executed r = TestResult.steps_executed result →
              TestResult.screenshots r = TestResult.screenshots result →
              ∃ shots,
                TestResult.screenshots r
                = TestResult.screenshots result ++ shots ∧
                (length shots ≤ 1)%nat ∧
                (truthy (TestScript.screenshot_on_failure script) = false →
                 shots = []) ∧
                ∀ p, p ∈ shots →
                     ∃ n, TestScript.name script = VStr n ∧
                          p = failure_path n
                                (i + (TestResult.steps_executed r
                                      - TestResult.steps_executed result)))
      as Hnone.
    { intros r _ Hr. rewrite Hr. no_shots. }
    destruct (is_Exception e).
    2:{ rewrite run_ret. intros [= <- <- <-]. cbn [length].
        split_and!; try done; try lia. by apply Hnone. }
    destruct (truthy (TestScript.screenshot_on_failure script)) eqn:Hflag.
    2:{ rewrite run_ret. intros [= <- <- <-]. cbn [length].
        split_and!; try done; try (cbn; lia). by apply Hnone. }
    run_bind. rewrite run_attempt.
    destruct (run env (BrowserEngine.failure_screenshot self script i) w1)
      as [w2 [e' | path]] eqn:Hshot; rewrite run_ret;
      intros [= <- <- <-]; cbn [length].
    + split_and!; try done; try (cbn; lia). by apply Hnone.
    + split_and!; try done; try (cbn; lia).
      exists [path]. cbn. split_and!; [done | lia | done |].
      intros p ->%list_elem_of_singleton.
      apply failure_screenshot_path in Hshot as (n & Hn & ->).
      exists n. split; [done |]. f_equal. lia.
  - intros H. apply IH in H
      as (Hname & Htotal & Hstart & Hend & Hpassed & Hexec & Hshots & Hexc).
    cbn in *. split_and!; try done; try lia.
    + destruct Hshots as (shots & ? & ? & ? & Hp). exists shots.
      split_and!; try done. intros p Hin.
      destruct (Hp p Hin) as (n & Hn & ->). exists n. split; [done |].
      f_equal. lia.
    + destruct exc; [lia |]. destruct Hexc as (? & ? & ?).
      split_and!; try done. lia.
Qed.

(** What the [try] body does to the result. *)
Lemma try_body_fields {W : Type} (env : environment W)
  (self : BrowserEngine.t) (script : TestScript.t) (result : TestResult.t)
  (w w' : W) (res : TestResult.t) (exc : option exn) :
  TestResult.steps_executed result = 0%nat →
  TestResult.screenshots result = [] →
  TestResult.error result = None →
  run env (BrowserEngine.try_body self script result) w
  = (w', inr (res, exc)) →
  TestResult.script_name res = TestResult.script_name result ∧
  TestResult.steps_total res = TestResult.steps_total result ∧
  TestResult.start_time res = TestResult.start_time result ∧
  TestResult.end_time res = TestResult.end_time result ∧
  (TestResult.steps_executed res ≤ length (TestScript.steps script))%nat ∧
  (length (TestResult.screenshots res) ≤ 1)%nat ∧
  (truthy (TestScript.screenshot_on_failure script) = false →
   TestResult.screenshots res = []) ∧
  (∀ p, p ∈ TestResult.screenshots res →
        ∃ n, TestScript.name script = VStr n ∧
             p = failure_path n (S (TestResult.steps_executed res))) ∧
  match exc with
  | None =>
      TestResult.passed res = true ∧
      TestResult.steps_executed res = length (TestScript.steps script) ∧
      TestResult.error res = None ∧
      TestResult.screenshots res = []
  | Some _ =>
      TestResult.passed res = TestResult.passed result
  end.
Proof.
  intros H0 Hs0 He0. rewrite run_try_body.
  destruct (run env (BrowserEngine.set_default_timeout self script) w)
    as [wb [e | u]].
  - intros [= <- <- <-]. rewrite H0, Hs0. cbn.
    split_and!; try done; try lia.
    all: intros p Hp; by apply not_elem_of_nil in Hp.
  - destruct (run env (BrowserEngine.run_steps _ _ _ _ _) wb)
      as [wc [e | [res' exc']]] eqn:Hloop; [by destruct exc |].
    apply run_steps_fields in Hloop
      as (Hname & Htotal & Hstart & Hend & Hpassed & Hexec
          & (shots & Hshots & Hlen & Hflag & Hpaths) & Hexc).
    rewrite H0, Hs0 in *. cbn [app] in *.
    destruct exc' as [e |]; intros [= <- <- <-].
    + split_and!; try done; try lia.
      * by rewrite Hshots.
      * intros Hf. rewrite Hshots. by apply Hflag.
      * intros p Hp. rewrite Hshots in Hp.
        destruct (Hpaths p Hp) as (n & Hn & ->). exists n. split; [done |].
        f_equal. lia.
    + destruct Hexc as (Hex & Herr & Hsh). cbn.
      rewrite Hsh, Hex, Herr, He0.
      split_and!; try done; try (cbn; lia).
      all: intros p Hp; by apply not_elem_of_nil in Hp.
Qed.

(** The result as the [except] and [finally] clauses leave it. *)
Lemma caught_result_fields (t1 : Z) (res : TestResult.t) (e : exn) :
  let r :=
    TestResult.set_end_time t1
      (let res' := TestResult.set_passed false res in
       if TestResult.error_unset res'
       then TestResult.set_error (Some (exn_msg e)) res' else res') in
  TestResult.script_name r = TestResult.script_name res ∧
  TestResult.steps_total r = TestResult.steps_total res ∧
  TestResult.steps_executed r = TestResult.steps_executed res ∧
  TestResult.start_time r = TestResult.start_time res ∧
  TestResult.end_time r = Some t1 ∧
  TestResult.screenshots r = TestResult.screenshots res.
Proof. cbv zeta. by case_match. Qed.

(** X18: the returned result carries the script's name, both time
    stamps, the number of steps of the script as [steps_total], and a
    [steps_executed] that never exceeds it. *)
Theorem result_bookkeeping {W : Type} (env : environment W)
  (self : BrowserEngine.t) (script : TestScript.t) (w w' : W)
  (r : TestResult.t) :
  run env (BrowserEngine.execute_script self script) w = (w', inr r) →
  TestResult.script_name r = TestScript.name script ∧
  TestResult.steps_total r = length (TestScript.steps script) ∧
  (TestResult.steps_executed r ≤ TestResult.steps_total r)%nat ∧
  (∃ wa t0, env Now w = (wa, inr t0) ∧ TestResult.start_time r = Some t0) ∧
  (∃ wb t1, env Now wb = (w', inr t1) ∧ TestResult.end_time r = Some t1).
Proof.
  intros Hrun.
  apply execute_script_returns_inv in Hrun
    as (t0 & wa & wb & res & exc & t1 & Hnow & Hbody & Hend & Hr).
  apply try_body_fields in Hbody
    as (Hname & Htotal & Hstart & _ & Hexec & _); [| done ..].
  cbn in Hname, Htotal, Hstart.
  assert (TestResult.script_name r = TestResult.script_name res ∧
          TestResult.steps_total r = TestResult.steps_total res ∧
          TestResult.steps_executed r = TestResult.steps_executed res ∧
          TestResult.start_time r = TestResult.start_time res ∧
          TestResult.end_time r = Some t1 ∧
          TestResult.screenshots r = TestResult.screenshots res)
    as (-> & -> & -> & -> & -> & _).
  { destruct exc as [e |]; [| by subst r]. destruct Hr as [_ ->].
    apply caught_result_fields. }
  rewrite Hname, Htotal, Hstart. split_and!; try done; eauto.
Qed.

(** X19: a returned result has passed exactly when it holds no error;
    and a result that has passed counts every step and has no
    screenshot. *)
Theorem passed_iff_no_error {W : Type} (env : environment W)
  (self : BrowserEngine.t) (script : TestScript.t) (w w' : W)
  (r : TestResult.t) :
  run env (BrowserEngine.execute_script self script) w = (w', inr r) →
  (TestResult.passed r = true ↔ TestResult.error r = None) ∧
  (TestResult.passed r = true →
   TestResult.steps_executed r = TestResult.steps_total r ∧
   TestResult.screenshots r = []).
Proof.
  intros Hrun.
  apply execute_script_returns_inv in Hrun
    as (t0 & wa & wb & res & exc & t1 & Hnow & Hbody & Hend & Hr).
  apply try_body_fields in Hbody
    as (_ & Htotal & _ & _ & _ & _ & _ & _ & Hexc); [| done ..].
  cbn in Htotal.
  destruct exc as [e |].
  - destruct Hr as [_ ->]. cbv zeta.
    unfold TestResult.error_unset.
    cbn [TestResult.error TestResult.set_passed].
    destruct (TestResult.error res) as [m |] eqn:Herr; cbn; [| done].
    destruct (msg_truthy m); cbn; by rewrite ?Herr.
  - subst r. destruct Hexc as (Hp & Hex & Herr & Hsh). cbn.
    rewrite Hp, Hex, Herr, Hsh, Htotal. done.
Qed.

(** X20: at most one screenshot is recorded per run; none when the
    script turns [screenshot_on_failure] off; and the one recorded is
    named after the script (spaces replaced) and the 1-based index of
    the step that failed. *)
Theorem screenshots_of_a_run {W : Type} (env : environment W)
  (self : BrowserEngine.t) (script : TestScript.t) (w w' : W)
  (r : TestResult.t) :
  run env (BrowserEngine.execute_script self script) w = (w', inr r) →
  (length (TestResult.screenshots r) ≤ 1)%nat ∧
  (truthy (TestScript.screenshot_on_failure script) = false →
   TestResult.screenshots r = []) ∧
  (∀ p, p ∈ TestResult.screenshots r →
        ∃ n, TestScript.name script = VStr n ∧
             p = failure_path n (S (TestResult.steps_executed r))).
Proof.
  intros Hrun.
  apply execute_script_returns_inv in Hrun
    as (t0 & wa & wb & res & exc & t1 & Hnow & Hbody & Hend & Hr).
  apply try_body_fields in Hbody
    as (_ & _ & _ & _ & _ & Hlen & Hflag & Hpaths & _); [| done ..].
  assert (TestResult.screenshots r = TestResult.screenshots res ∧
          TestResult.steps_executed r = TestResult.steps_executed res)
    as [-> ->]; [| done].
  destruct exc as [e |]; [| by subst r]. destruct Hr as [_ ->].
  by destruct (caught_result_fields t1 res e) as (_ & _ & -> & _ & _ & ->).
Qed.

(** ** Fail-fast and interrupts *)

Lemma trace_attempt {W A : Type} (env : environment W) (p : prog A) (w : W) :
  trace env (attempt p) w = trace env p w.
Proof.
  revert w. induction p as [a | e | c k IH]; intros w; try done.
  change (trace env (attempt (Vis c k)) w)
    with (let '(w', r) := env c w in c :: trace env (attempt (k r)) w').
  change (trace env (Vis c k) w)
    with (let '(w', r) := env c w in c :: trace env (k r) w').
  destruct (env c w) as [w' r]. by rewrite IH.
Qed.

Lemma failure_screenshot_same (self : BrowserEngine.t)
  (script1 script2 : TestScript.t) (i : nat) :
  TestScript.name script1 = TestScript.name script2 →
  BrowserEngine.failure_screenshot self script1 i
  = BrowserEngine.failure_screenshot self script2 i.
Proof. unfold BrowserEngine.failure_screenshot. by intros ->. Qed.

(** Once a step has failed, what the loop does no longer depends on
    the steps that follow, and the events never depend on the
    result being built. *)
Lemma run_steps_post_irrelevant {W : Type} (env : environment W)
  (self : BrowserEngine.t) (script1 script2 : TestScript.t)
  (pre : list TestStep.t) :
  TestScript.name script1 = TestScript.name script2 →
  TestScript.screenshot_on_failure script1
  = TestScript.screenshot_on_failure script2 →
  ∀ i result1 result2 w st post1 post2 w1 w2 e,
    dispatch_all env self pre w = Some w1 →
    run env (BrowserEngine.dispatch self st) w1 = (w2, inl e) →
    ∃ w3 res1 res2 exc,
      run env (BrowserEngine.run_steps self script1 i (pre ++ st :: post1)
                 result1) w
      = (w3, inr (res1, Some exc)) ∧
      run env (BrowserEngine.run_steps self script2 i (pre ++ st :: post2)
                 result2) w
      = (w3, inr (res2, Some exc)) ∧
      trace env (BrowserEngine.run_steps self script1 i (pre ++ st :: post1)
                   result1) w
      = trace env (BrowserEngine.run_steps self script2 i
                     (pre ++ st :: post2) result2) w.
Proof.
  intros Hname Hflag.
  induction pre as [| st0 pre IH];
    intros i result1 result2 w st post1 post2 w1 w2 e Hpre Hst;
    cbn [app BrowserEngine.run_steps dispatch_all] in *;
    unfold mbind, prog_mbind;
    rewrite !run_prog_bind, !trace_prog_bind, !run_attempt, !trace_attempt.
  - injection Hpre as <-. rewrite Hst, <- Hflag.
    rewrite <- (failure_screenshot_same self script1 script2 i Hname).
    destruct (is_Exception e); [| by eexists _, _, _, _].
    destruct (truthy _); [| by eexists _, _, _, _].
    rewrite !run_prog_bind, !trace_prog_bind, !run_attempt, !trace_attempt.
    destruct (run env (BrowserEngine.failure_screenshot self script1 i) w2)
      as [w3 [e' | path]]; by eexists _, _, _, _.
  - destruct (run env (BrowserEngine.dispatch self st0) w) as [w0 [e0 | u]];
      [done |].
    destruct (IH (S i) (TestResult.incr_steps_executed result1)
                (TestResult.incr_steps_executed result2) w0 st
                post1 post2 w1 w2 e Hpre Hst)
      as (w3 & res1 & res2 & exc & -> & -> & ->).
    by eexists _, _, _, _.
Qed.

Lemma trace_finally {W : Type} (env : environment W) (result : TestResult.t)
  (pending : option exn) (w : W) :
  trace env (BrowserEngine.finally result pending) w = [Now].
Proof.
  unfold BrowserEngine.finally, mbind, prog_mbind. bind_call.
  destruct (env Now w) as [w' [e | t1]]; [done |]. by destruct pending.
Qed.

(** X21: execution is fail-fast. Two scripts that differ only in the
    steps after the first failing one drive the browser through
    exactly the same events: no step after the failure is ever
    dispatched. *)
Theorem steps_after_failure_not_dispatched {W : Type} (env : environment W)
  (self : BrowserEngine.t) (script1 script2 : TestScript.t) (w wb : W)
  (pre post1 post2 : list TestStep.t) (st : TestStep.t) (e : exn) :
  TestScript.name script1 = TestScript.name script2 →
  TestScript.timeout script1 = TestScript.timeout script2 →
  TestScript.screenshot_on_failure script1
  = TestScript.screenshot_on_failure script2 →
  TestScript.steps script1 = pre ++ st :: post1 →
  TestScript.steps script2 = pre ++ st :: post2 →
  init_phase env self script1 w = Some (wb, inr ()) →
  fails_at env self (TestScript.steps script1) wb pre st e →
  trace env (BrowserEngine.execute_script self script1) w
  = trace env (BrowserEngine.execute_script self script2) w.
Proof.
  intros Hname Htimeout Hflag Hsteps1 Hsteps2 Hinit
    (post & w1 & w2 & Heq & Hpre & Hst).
  assert (BrowserEngine.set_default_timeout self script1
          = BrowserEngine.set_default_timeout self script2) as Hsame.
  { unfold BrowserEngine.set_default_timeout. by rewrite Htimeout. }
  unfold init_phase in Hinit.
  unfold BrowserEngine.execute_script, mbind, prog_mbind.
  do 2 bind_call.
  destruct (env Now w) as [wa [e0 | t0]]; [done |].
  injection Hinit as Hinit. f_equal.
  rewrite !trace_prog_bind.
  unfold BrowserEngine.try_body, mbind, prog_mbind.
  rewrite !run_prog_bind, !trace_prog_bind, !run_attempt, !trace_attempt.
  rewrite <- Hsame, Hinit.
  rewrite !run_prog_bind, !trace_prog_bind, Hsteps1, Hsteps2.
  match goal with
  | |- context [BrowserEngine.run_steps self script1 1 _ ?r1] =>
      match goal with
      | |- context [BrowserEngine.run_steps self script2 1 _ ?r2] =>
          destruct (run_steps_post_irrelevant env self script1 script2 pre
                      Hname Hflag 1 r1 r2 wb st post1 post2 w1 w2 e Hpre Hst)
            as (w3 & res1 & res2 & exc & -> & -> & ->)
      end
  end.
  rewrite !run_ret.
  destruct (BrowserEngine.except_Exception res1 (Some exc))
    as [r1' pending1] eqn:E1.
  destruct (BrowserEngine.except_Exception res2 (Some exc))
    as [r2' pending2] eqn:E2.
  by rewrite !trace_finally.
Qed.

(** X22: an exception that is not an [Exception] (an interrupt, a
    cancellation) raised by a step is not turned into a failed result:
    [execute_script] returns no result at all. *)
Theorem interrupt_leaves_no_result {W : Type} (env : environment W)
  (self : BrowserEngine.t) (script : TestScript.t) (w wb : W)
  (pre : list TestStep.t) (st : TestStep.t) (e : exn) :
  init_phase env self script w = Some (wb, inr ()) →
  fails_at env self (TestScript.steps script) wb pre st e →
  is_Exception e = false →
  ∃ w' e', run env (BrowserEngine.execute_script self script) w
           = (w', inl e').
Proof.
  intros Hinit (post & w1 & w2 & Hsteps & Hpre & Hst) He.
  rewrite run_execute_script. unfold init_phase in Hinit.
  destruct (env Now w) as [wa [e0 | t0]]; [done |].
  injection Hinit as Hinit. cbv zeta.
  rewrite run_try_body, Hinit, Hsteps.
  match goal with
  | |- context [BrowserEngine.run_steps self script 1 _ ?r0] =>
      destruct (run_steps_first_failure env self script pre 1 r0 wb st post
                  w1 w2 e Hpre Hst)
        as (w3 & res & exc & -> & _ & _ & Hexc)
  end.
  rewrite He in Hexc. destruct Hexc as [-> _].
  unfold BrowserEngine.except_Exception. rewrite He, run_finally.
  destruct (env Now w3) as [w4 [e' | t1]]; by eexists _, _.
Qed.

(** ** The session *)

(** How [start] leaves the engine: with a new page and a dispatcher
    bound to it, or, when something raised on the way, with the page
    and the dispatcher it had. *)
Lemma start_inv {W : Type} (env : environment W) (self : BrowserEngine.t)
  (w : W) :
  ∃ w' self' r,
    run env (BrowserEngine.start self) w = (w', inr (self', r)) ∧
    BrowserEngine.headless self' = BrowserEngine.headless self ∧
    BrowserEngine.browser_type self' = BrowserEngine.browser_type self ∧
    match r with
    | inr _ =>
        ∃ pg, BrowserEngine.page self' = Some pg ∧
              BrowserEngine.actions self' = Some (BrowserActions.mk pg) ∧
              is_Some (BrowserEngine.browser self')
    | inl _ =>
        BrowserEngine.page self' = BrowserEngine.page self ∧
        BrowserEngine.actions self' = BrowserEngine.actions self
    end.
Proof.
  unfold BrowserEngine.start, mbind, prog_mbind.
  rewrite run_prog_bind, run_attempt. run_call.
  destruct (env PlaywrightStart w) as [w1 [e | pw]];
    [by eexists _, _, _ |].
  cbn [BrowserEngine.browser_type BrowserEngine.headless].
  case_bool_decide; [| by eexists _, _, _].
  rewrite run_prog_bind, run_attempt. run_call.
  destruct (env (Launch _ _ _) w1) as [w2 [e | b]]; [by eexists _, _, _ |].
  rewrite run_prog_bind, run_attempt. run_call.
  destruct (env (NewContext b) w2) as [w3 [e | ctx]];
    [by eexists _, _, _ |].
  rewrite run_prog_bind, run_attempt. run_call.
  destruct (env (NewPage ctx) w3) as [w4 [e | pg]];
    [by eexists _, _, _ |].
  eexists _, _, _. split; [done |]. split; [done |]. split; [done |].
  exists pg. by split_and!.
Qed.

Lemma run_test_file_bound {W : Type} (env : environment W)
  (self self' : BrowserEngine.t) (path : string) (w w' : W)
  (r : exn + TestResult.t) :
  session_bound self →
  run env (BrowserEngine.run_test_file self path) w = (w', inr (self', r)) →
  session_bound self'.
Proof.
  intros Hbound. unfold BrowserEngine.run_test_file, mbind, prog_mbind.
  rewrite run_prog_bind, run_attempt.
  destruct (run env (BrowserEngine.load_script path) w)
    as [w1 [e | script]]; [by intros [= <- <- <-] |].
  rewrite run_prog_bind.
  assert (∀ w0 (o : exn + TestResult.t) w'' s'' r'',
            session_bound s'' →
            run env
              (prog_bind (fun r0 => Ret (s'', r0))
                 (attempt (BrowserEngine.execute_script s'' script))) w0
            = (w'', inr (self', r'')) → session_bound self') as Hexec.
  { intros w0 _ w'' s'' r'' Hs. rewrite run_prog_bind, run_attempt.
    destruct (run env _ w0) as [? [? | ?]]; by intros [= <- <- <-]. }
  destruct (_ || _).
  - rewrite run_prog_bind.
    destruct (BrowserEngine.browser self) as [b |].
    + rewrite run_attempt.
      destruct (run env (BrowserEngine.stop self) w1) as [w2 [e | u]].
      * rewrite !run_ret. by intros [= <- <- <-].
      * match goal with
        | |- context [BrowserEngine.start ?s] =>
            destruct (start_inv env s w2)
              as (w3 & s3 & r3 & -> & _ & _ & Hr3)
        end.
        destruct r3 as [e | u3].
        -- rewrite run_ret. intros [= <- <- <-].
           unfold session_bound. by destruct Hr3 as [-> ->].
        -- apply (Hexec _ r). unfold session_bound.
           by destruct Hr3 as (pg & -> & -> & _).
    + rewrite run_ret.
      match goal with
      | |- context [BrowserEngine.start ?s] =>
          destruct (start_inv env s w1)
            as (w3 & s3 & r3 & -> & _ & _ & Hr3)
      end.
      destruct r3 as [e | u3].
      * rewrite run_ret. intros [= <- <- <-].
        unfold session_bound. by destruct Hr3 as [-> ->].
      * apply (Hexec _ r). unfold session_bound.
        by destruct Hr3 as (pg & -> & -> & _).
  - rewrite run_ret. by apply (Hexec _ r).
Qed.

(** X23: throughout a batch the dispatcher stays bound to the engine's
    own page, across every restart of the session and every failure to
    start one. *)
Theorem session_stays_bound {W : Type} (env : environment W)
  (paths : list string) :
  ∀ (engine engine' : BrowserEngine.t) (results : list TestResult.t)
    (w w' : W) (r : exn + list TestResult.t),
    session_bound engine →
    run env (run_loop paths engine results) w = (w', inr (engine', r)) →
    session_bound engine'.
Proof.
  induction paths as [| path paths IH];
    intros engine engine' results w w' r Hbound.
  { cbn [run_loop]. rewrite run_ret. by intros [= <- <- <-]. }
  cbn [run_loop]. run_bind.
  destruct (run env (BrowserEngine.run_test_file engine path) w)
    as [w1 [e | [engine1 r1]]] eqn:Hfile; [done |].
  apply run_test_file_bound in Hfile; [| done].
  destruct r1 as [e | result]; [| by apply IH].
  destruct (is_Exception e); [by apply IH |].
  rewrite run_ret. by intros [= <- <- <-].
Qed.

(** X24: an engine set up for a browser type other than chromium,
    firefox or webkit fails to start with [ValueError]; by then the
    Playwright driver is running and recorded on the engine, and no
    browser has been launched. *)
Theorem start_unknown_browser_type {W : Type} (env : environment W)
  (self : BrowserEngine.t) (w w1 : W) (pw : handle) :
  BrowserEngine.browser_type self ∉ ["chromium"; "firefox"; "webkit"] →
  env PlaywrightStart w = (w1, inr pw) →
  ∃ self',
    run env (BrowserEngine.start self) w
    = (w1, inr (self', inl (Exn ValueError
                              [Lit "Unknown browser type: ";
                               Lit (BrowserEngine.browser_type self)]))) ∧
    BrowserEngine.playwright self' = Some pw ∧
    BrowserEngine.browser self' = BrowserEngine.browser self ∧
    trace env (BrowserEngine.start self) w = [PlaywrightStart].
Proof.
  intros Htype Hpw. unfold BrowserEngine.start, mbind, prog_mbind.
  rewrite run_prog_bind, trace_prog_bind, run_attempt, trace_attempt.
  run_call. trace_call. rewrite Hpw.
  cbn [BrowserEngine.browser_type BrowserEngine.headless].
  rewrite bool_decide_eq_false_2 by done.
  by eexists.
Qed.

(** X25: [stop] releases in order and stops at the first failure: when
    closing the context raises, neither the browser is closed nor the
    Playwright driver stopped. *)
Theorem stop_ends_at_first_failure {W : Type} (env : environment W)
  (self : BrowserEngine.t) (w w1 : W) (ctx : handle) (e : exn) :
  BrowserEngine.context self = Some ctx →
  env (CloseContext ctx) w = (w1, inl e) →
  run env (BrowserEngine.stop self) w = (w1, inl e) ∧
  trace env (BrowserEngine.stop self) w = [CloseContext ctx].
Proof.
  intros Hctx Hclose. unfold BrowserEngine.stop, mbind, prog_mbind.
  rewrite Hctx. do 2 bind_call. by rewrite Hclose.
Qed.

(** ** Loading before running *)

Lemma parse_file_disk_only {W : Type} (env : environment W) (path : string)
  (w : W) :
  Forall disk_event (trace env (ScriptParser.parse_file path) w).
Proof.
  unfold ScriptParser.parse_file, mbind, prog_mbind. bind_call.
  destruct (env (PathExists path) w) as [w1 [e | found]];
    [by repeat constructor |].
  destruct found; cbn [negb]; [| by repeat constructor].
  bind_call.
  destruct (env (SafeLoad path) w1) as [w2 [e | data]];
    [by repeat constructor |].
  destruct data as [| | | | | d]; try by repeat constructor.
  destruct (TestScript.from_dict d); by repeat constructor.
Qed.

Lemma load_script_disk_only {W : Type} (env : environment W) (path : string)
  (w : W) :
  Forall disk_event (trace env (BrowserEngine.load_script path) w).
Proof.
  unfold BrowserEngine.load_script, mbind, prog_mbind.
  rewrite trace_then_silent; [apply parse_file_disk_only |].
  intros script w'. rewrite trace_then_silent.
  - by destruct (ScriptParser.validate_script script).
  - by intros [| ? ?] ?.
Qed.

(** X26: a script is loaded and validated before the session is
    touched: when loading or validation fails, [run_test_file] has
    only read the disk, and leaves the engine as it was. *)
Theorem unloadable_script_touches_only_disk {W : Type}
  (env : environment W) (self : BrowserEngine.t) (path : string)
  (w w1 : W) (e : exn) :
  run env (BrowserEngine.load_script path) w = (w1, inl e) →
  run env (BrowserEngine.run_test_file self path) w
  = (w1, inr (self, inl e)) ∧
  Forall disk_event (trace env (BrowserEngine.run_test_file self path) w).
Proof.
  intros Hload. split; [by apply run_test_file_load_failure |].
  unfold BrowserEngine.run_test_file, mbind, prog_mbind.
  rewrite trace_prog_bind, trace_attempt, run_attempt, Hload.
  rewrite app_nil_r. apply load_script_disk_only.
Qed.

(** X27: a script whose [headless] setting equals that of the running
    session is executed in that session: nothing is stopped or
    started, and the engine is left as it was. *)
Theorem same_mode_reuses_session {W : Type} (env : environment W)
  (self : BrowserEngine.t) (path : string) (w w1 : W)
  (script : TestScript.t) (b : handle) :
  run env (BrowserEngine.load_script path) w = (w1, inr script) →
  BrowserEngine.browser self = Some b →
  py_eq (TestScript.headless script) (BrowserEngine.headless self) = true →
  run env (BrowserEngine.run_test_file self path) w =
  (let '(w2, r) := run env (BrowserEngine.execute_script self script) w1 in
   (w2, inr (self, r))) ∧
  trace env (BrowserEngine.run_test_file self path) w =
  trace env (BrowserEngine.load_script path) w
  ++ trace env (BrowserEngine.execute_script self script) w1.
Proof.
  intros Hload Hb Heq.
  unfold BrowserEngine.run_test_file, mbind, prog_mbind.
  rewrite run_prog_bind, trace_prog_bind, trace_attempt, run_attempt, Hload.
  rewrite Hb, Heq, bool_decide_eq_true_2 by by eexists.
  cbn [negb orb]. rewrite prog_bind_ret.
  rewrite run_prog_bind, trace_then_silent, trace_attempt, run_attempt
    by done.
  split; [| done].
  by destruct (run env (BrowserEngine.execute_script self script) w1)
    as [w2 r].
Qed.

(** ** The batch as a whole *)

Lemma run_loop_outcome {W : Type} (env : environment W)
  (paths : list string) :
  ∀ engine acc w w' engine' r,
    run env (run_loop paths engine acc) w = (w', inr (engine', r)) →
    match r with
    | inr rs => length rs = (length acc + length paths)%nat
    | inl e => is_Exception e = false
    end.
Proof.
  induction paths as [| path rest IH]; intros engine acc w w' engine' r.
  { cbn [run_loop]. rewrite run_ret. intros [= <- <- <-]. cbn. lia. }
  cbn [run_loop]. run_bind.
  destruct (run env (BrowserEngine.run_test_file engine path) w)
    as [w1 [e | [engine1 [e | result]]]]; [done | |].
  - destruct (is_Exception e) eqn:He.
    + intros H. apply IH in H. destruct r; [done |].
      rewrite length_app in H. cbn in *. lia.
    + rewrite run_ret. by intros [= <- <- <-].
  - intros H. apply IH in H. destruct r; [done |].
    rewrite length_app in H. cbn in *. lia.
Qed.

(** X28: a batch ends in one of two ways: with exactly one result per
    script path, or cut short by an exception that is not an
    [Exception] (an interrupt); no failure of a script itself ends
    it. *)
Theorem batch_outcome {W : Type} (env : environment W)
  (paths : list string) (engine engine' : BrowserEngine.t) (w w' : W)
  (r : exn + list TestResult.t) :
  run env (run_loop paths engine []) w = (w', inr (engine', r)) →
  match r with
  | inr results => length results = length paths
  | inl e => is_Exception e = false
  end.
Proof. intros H. by apply run_loop_outcome in H. Qed.

Lemma count_passed_all (results : list TestResult.t) :
  count_passed results = length results ↔
  Forall (fun r => TestResult.passed r = true) results.
Proof.
  unfold count_passed. induction results as [| r results IH].
  { split; [constructor | done]. }
  rewrite filter_cons. pose proof (length_filter
    (fun r => TestResult.passed r = true) results) as Hle.
  case_decide; cbn [length]; rewrite Forall_cons.
  - rewrite <- IH. split; [by intros [= ?] | by intros [_ ->]].
  - split; [lia | by intros [? _]].
Qed.

(** X29: [run_tests] returns 0 when every result of the batch has
    passed, and 1 otherwise. *)
Theorem run_tests_exit_code {W : Type} (env : environment W)
  (paths : list string) (headless : bool) (browser : string) (w w' : W)
  (code : Z) :
  run env (run_tests paths headless browser) w = (w', inr code) →
  ∃ w0 engine0 w1 engine1 results,
    run env (BrowserEngine.start
               (BrowserEngine.init (VBool headless) browser)) w
    = (w0, inr (engine0, inr ())) ∧
    run env (run_loop paths engine0 []) w0
    = (w1, inr (engine1, inr results)) ∧
    code = (if bool_decide
                 (Forall (fun r => TestResult.passed r = true) results)
            then 0%Z else 1%Z).
Proof.
  unfold run_tests, mbind, prog_mbind. rewrite run_prog_bind.
  destruct (run env (BrowserEngine.start _) w)
    as [w0 [e | [engine0 r0]]] eqn:Hstart; [done |].
  rewrite run_prog_bind, run_lift. destruct r0 as [e | []]; [done |].
  rewrite run_prog_bind.
  destruct (run env (run_loop paths engine0 []) w0)
    as [w1 [e | [engine1 body]]] eqn:Hloop; [done |].
  rewrite run_prog_bind.
  destruct (run env (BrowserEngine.stop engine1) w1) as [w2 [e | u]];
    [done |].
  rewrite run_prog_bind, run_lift. destruct body as [e | results]; [done |].
  rewrite run_ret. intros [= <- <-].
  eexists _, _, _, _, _. split; [done |]. split; [done |].
  pose proof (count_passed_all results) as Hall.
  pose proof (length_filter (fun r => TestResult.passed r = true) results)
    as Hle. fold (count_passed results) in Hle.
  case_bool_decide as Hd.
  - apply Hall in Hd. rewrite Hd, Nat.sub_diag. done.
  - destruct (length results - count_passed results)%nat eqn:E; [| done].
    destruct Hd. apply Hall. lia.
Qed.

(** X30: validate mode never starts a session: whatever the script
    files hold, [main] only reads the disk. *)
Theorem validate_mode_reads_only_disk {W : Type} (env : environment W)
  (script_paths : list string) (headless_flag headed : bool)
  (browser : string) (w : W) :
  Forall disk_event
    (trace env (main (mkArguments script_paths headless_flag headed browser
                        true)) w).
Proof.
  unfold main. cbn [validate scripts]. unfold mbind, prog_mbind.
  rewrite trace_then_silent by done.
  generalize true. revert w.
  induction script_paths as [| path paths IH]; intros w flag;
    [constructor |].
  cbn [validate_loop]. unfold mbind, prog_mbind.
  rewrite trace_prog_bind, trace_attempt, run_attempt.
  apply Forall_app. split.
  - rewrite trace_then_silent; [apply parse_file_disk_only |].
    intros script w'. by destruct (ScriptParser.validate_script script).
  - destruct (run env _ w) as [w1 [e | [| m errors]]]; try apply IH.
    destruct (is_Exception e); [apply IH | constructor].
Qed.

(** ** Instances

    Each property above that has a premise, at a concrete script,
    document or run. *)

Lemma validate_reports_unknown_action_witness :
  unknown_action_msg 2 unknown_step ∈ [unknown_action_msg 2 unknown_step].
Proof.
  apply (validate_reports_unknown_action
           (script_of [navigate_step; unknown_step]) [navigate_step] []
           unknown_step); by vm_compute.
Defined.

Lemma validate_reports_missing_params_witness :
  missing_params_msg 1 incomplete_step
    (filter (fun p => TestStep.params incomplete_step !! p = None)
            ["selector"; "text"])
  ∈ [missing_params_msg 1 incomplete_step ["text"]].
Proof.
  apply (validate_reports_missing_params (script_of [incomplete_step]) [] []
           incomplete_step "type" ["selector"; "text"]).
  - reflexivity.
  - reflexivity.
  - by vm_compute.
  - intros H. apply Forall_cons in H as [_ H].
    apply Forall_cons in H as [[v Hv] _]. by vm_compute in Hv.
  - by vm_compute.
Defined.

Lemma validate_error_count_witness :
  (length [text "Script must have a name";
           text "Script must have at least one step"]
   ≤ 2 + length (TestScript.steps blank_script))%nat.
Proof. apply (validate_error_count blank_script). by vm_compute. Defined.

Lemma from_dict_steps_witness :
  Forall2
    (fun item st =>
       item = VDict (<[ "action" := TestStep.action st ]>
                       (TestStep.params st)) ∧
       TestStep.params st !! "action" = None ∧
       TestStep.params st !! "self" = None)
    [VDict {[ "action" := VStr "navigate"; "url" := VStr "http://x" ]}]
    (TestScript.steps unnamed_script).
Proof.
  apply (from_dict_steps nameless_document); by vm_compute.
Defined.

Lemma from_dict_step_without_action_witness :
  TestScript.from_dict actionless_document
  = inl (Exn KeyError (text "'action'")).
Proof.
  apply (from_dict_step_without_action actionless_document
           {[ "url" := VStr "http://x" ]} [] [] []); by vm_compute.
Defined.

Lemma document_without_steps_witness :
  ∃ script errors,
    TestScript.from_dict ∅ = inr script ∧
    TestScript.steps script = [] ∧
    ScriptParser.validate_script script = inr errors ∧
    text "Script must have at least one step" ∈ errors ∧
    Forall (fun m => ¬ step_message m) errors.
Proof. apply (document_without_steps ∅). left. by vm_compute. Defined.

Lemma parse_file_missing_witness :
  run (stub ∅ never_fails) (ScriptParser.parse_file "missing.yaml") 0%Z
  = (1%Z, inl missing_file) ∧
  trace (stub ∅ never_fails) (ScriptParser.parse_file "missing.yaml") 0%Z
  = [PathExists "missing.yaml"].
Proof.
  apply (parse_file_missing (stub ∅ never_fails) 0%Z 1%Z "missing.yaml").
  by vm_compute.
Defined.

Lemma parse_file_not_mapping_witness :
  run (stub {[ "list.yaml" := VList [] ]} never_fails)
      (ScriptParser.parse_file "list.yaml") 0%Z
  = (2%Z, inl (Exn ValueError
                 (text "Test script must be a YAML dictionary"))).
Proof.
  apply (parse_file_not_mapping (stub {[ "list.yaml" := VList [] ]} never_fails)
           0%Z 1%Z 2%Z "list.yaml" (VList [])); [by vm_compute .. | done].
Defined.

Lemma registered_action_missing_parameter_witness :
  BrowserActions.execute_action (BrowserActions.mk 7%N) (VStr "type")
    (VDict {[ "selector" := VStr "#a" ]})
  = Raise (missing_arguments (String.append "BrowserActions." "type")
             (ScriptParser.missing_params ["selector"; "text"]
                {[ "selector" := VStr "#a" ]})).
Proof.
  apply registered_action_missing_parameter.
  - by vm_compute.
  - by vm_compute.
  - intros H. apply Forall_cons in H as [_ H].
    apply Forall_cons in H as [[v Hv] _]. by vm_compute in Hv.
Defined.

Lemma unregistered_name_unknown_action_witness :
  BrowserActions.execute_action (BrowserActions.mk 7%N) (VStr "fly")
    (VDict ∅)
  = Raise (Exn ValueError [Lit "Unknown action: "; Fmt (VStr "fly")]).
Proof.
  apply unregistered_name_unknown_action; by vm_compute.
Defined.

Lemma upload_file_not_found_witness :
  let p :=
    BrowserActions.execute_action (BrowserActions.mk 7%N)
      (VStr "upload_file")
      (VDict {[ "selector" := VStr "#f"; "file_path" := VStr "a.txt" ]}) in
  run (stub ∅ never_fails) p 0%Z
  = (2%Z, inl (Exn FileNotFoundError
                 [Lit "File not found: "; Fmt (VStr "a.txt")])) ∧
  trace (stub ∅ never_fails) p 0%Z
  = [Expanduser "a.txt"; PathExists "a.txt"].
Proof.
  apply (upload_file_not_found (stub ∅ never_fails) 0%Z 1%Z 2%Z
           (BrowserActions.mk 7%N) _ (VStr "#f") "a.txt" "a.txt");
    by vm_compute.
Defined.

Lemma count_elements_asserts_witness :
  run (stub ∅ never_fails)
      (BrowserActions.execute_action (BrowserActions.mk 7%N)
         (VStr "count_elements") (VDict {[ "selector" := VStr "li" ]})) 0%Z
  = (1%Z, if (1 =? 0)%Z
          then inl (Exn AssertionError
                      [Lit "Expected at least 1 element matching '";
                       Fmt (VStr "li"); Lit "', found 0"])
          else inr ()).
Proof.
  apply (count_elements_asserts (stub ∅ never_fails) 0%Z 1%Z
           (BrowserActions.mk 7%N) {[ "selector" := VStr "li" ]} (VStr "li")
           1%Z); by vm_compute.
Defined.

Lemma assert_count_compares_witness :
  let p :=
    BrowserActions.execute_action (BrowserActions.mk 7%N)
      (VStr "assert_count")
      (VDict {[ "selector" := VStr "li"; "expected" := VInt 2 ]}) in
  (∀ n, VInt 2 = VInt n →
        run (stub ∅ never_fails) p 0%Z = (1%Z, inr ()) ↔ 1%Z = n) ∧
  (∀ s, VInt 2 = VStr s →
        ∃ e, run (stub ∅ never_fails) p 0%Z = (1%Z, inl e) ∧
             exn_cls e = AssertionError).
Proof.
  apply (assert_count_compares (stub ∅ never_fails) 0%Z 1%Z
           (BrowserActions.mk 7%N) _ (VStr "li") (VInt 2) 1%Z);
    by vm_compute.
Defined.

Lemma assert_min_count_compares_witness :
  let p :=
    BrowserActions.execute_action (BrowserActions.mk 7%N)
      (VStr "assert_min_count")
      (VDict {[ "selector" := VStr "li"; "minimum" := VInt 1 ]}) in
  (∀ m, VInt 1 = VInt m →
        run (stub ∅ never_fails) p 0%Z = (1%Z, inr ()) ↔ (m ≤ 1)%Z) ∧
  (∀ s, VInt 1 = VStr s →
        ∃ e, run (stub ∅ never_fails) p 0%Z = (1%Z, inl e) ∧
             exn_cls e = TypeError).
Proof.
  apply (assert_min_count_compares (stub ∅ never_fails) 0%Z 1%Z
           (BrowserActions.mk 7%N) _ (VStr "li") (VInt 1) 1%Z);
    by vm_compute.
Defined.

Lemma wait_for_selector_timeout_witness :
  ∃ kw',
    trace (stub ∅ never_fails)
      (BrowserActions.execute_action (BrowserActions.mk 7%N)
         (VStr "wait_for_selector") (VDict {[ "selector" := VStr "#a" ]}))
      0%Z
    = [PageCall 7%N WaitForSelector [VStr "#a"] kw'] ∧
    kw' !! "timeout"
    = Some (dict_get {[ "selector" := VStr "#a" ]} "timeout" (VInt 30000)).
Proof.
  apply (wait_for_selector_timeout (stub ∅ never_fails) 0%Z
           (BrowserActions.mk 7%N) {[ "selector" := VStr "#a" ]}
           (VStr "#a")); by vm_compute.
Defined.

Lemma result_bookkeeping_witness :
  let env := stub ∅ assertion_and_screenshot_fail in
  let r := scenario_B_result in
  TestResult.script_name r = TestScript.name scenario_B ∧
  TestResult.steps_total r = length (TestScript.steps scenario_B) ∧
  (TestResult.steps_executed r ≤ TestResult.steps_total r)%nat ∧
  (∃ wa t0, env Now 0%Z = (wa, inr t0) ∧ TestResult.start_time r = Some t0) ∧
  (∃ wb t1, env Now wb = (6%Z, inr t1) ∧ TestResult.end_time r = Some t1).
Proof.
  apply (result_bookkeeping (stub ∅ assertion_and_screenshot_fail)
           started_engine scenario_B 0%Z 6%Z scenario_B_result).
  exact scenario_B_run.
Defined.

Lemma passed_iff_no_error_witness :
  let r := scenario_B_result in
  (TestResult.passed r = true ↔ TestResult.error r = None) ∧
  (TestResult.passed r = true →
   TestResult.steps_executed r = TestResult.steps_total r ∧
   TestResult.screenshots r = []).
Proof.
  apply (passed_iff_no_error (stub ∅ assertion_and_screenshot_fail)
           started_engine scenario_B 0%Z 6%Z scenario_B_result).
  exact scenario_B_run.
Defined.

Lemma screenshots_of_a_run_witness :
  let r := scenario_B_click_result in
  (length (TestResult.screenshots r) ≤ 1)%nat ∧
  (truthy (TestScript.screenshot_on_failure scenario_B) = false →
   TestResult.screenshots r = []) ∧
  (∀ p, p ∈ TestResult.screenshots r →
        ∃ n, TestScript.name scenario_B = VStr n ∧
             p = failure_path n (S (TestResult.steps_executed r))).
Proof.
  apply (screenshots_of_a_run (stub ∅ click_fails) started_engine scenario_B
           0%Z 5%Z scenario_B_click_result).
  by vm_compute.
Defined.

Lemma steps_after_failure_not_dispatched_witness :
  trace (stub ∅ assertion_and_screenshot_fail)
    (BrowserEngine.execute_script started_engine scenario_B) 0%Z
  = trace (stub ∅ assertion_and_screenshot_fail)
      (BrowserEngine.execute_script started_engine scenario_B_longer) 0%Z.
Proof.
  apply (steps_after_failure_not_dispatched
           (stub ∅ assertion_and_screenshot_fail) started_engine scenario_B
           scenario_B_longer 0%Z 2%Z [click_step] [] [navigate_step]
           assert_text_step text_mismatch);
    [reflexivity .. | by vm_compute | exact scenario_B_fails_at].
Defined.

Lemma interrupt_leaves_no_result_witness :
  ∃ w' e',
    run (stub ∅ interrupt_on_click)
        (BrowserEngine.execute_script started_engine scenario_B) 0%Z
    = (w', inl e').
Proof.
  apply (interrupt_leaves_no_result (stub ∅ interrupt_on_click)
           started_engine scenario_B 0%Z 2%Z [] click_step interrupt).
  - by vm_compute.
  - exists [assert_text_step], 2%Z, 3%Z. repeat split; by vm_compute.
  - reflexivity.
Defined.

Lemma session_stays_bound_witness : session_bound scenario_D_engine.
Proof.
  apply (session_stays_bound (stub scenario_D_files never_fails)
           ["missing.yaml"; "t1.yaml"]
           (BrowserEngine.init (VBool true) "chromium") scenario_D_engine []
           0%Z 11%Z (inr [scenario_D_failed; scenario_D_passed]));
    by vm_compute.
Defined.

Lemma start_unknown_browser_type_witness :
  let env := stub ∅ never_fails in
  let self := BrowserEngine.init (VBool true) "opera" in
  ∃ self',
    run env (BrowserEngine.start self) 0%Z
    = (1%Z, inr (self', inl (Exn ValueError
                               [Lit "Unknown browser type: ";
                                Lit (BrowserEngine.browser_type self)]))) ∧
    BrowserEngine.playwright self' = Some 0%N ∧
    BrowserEngine.browser self' = BrowserEngine.browser self ∧
    trace env (BrowserEngine.start self) 0%Z = [PlaywrightStart].
Proof.
  intros env self.
  apply (start_unknown_browser_type env self 0%Z 1%Z 0%N).
  - apply (bool_decide_unpack _). by vm_compute.
  - by vm_compute.
Defined.

Lemma stop_ends_at_first_failure_witness :
  run (stub ∅ close_context_fails) (BrowserEngine.stop started_engine) 0%Z
  = (1%Z, inl target_closed) ∧
  trace (stub ∅ close_context_fails) (BrowserEngine.stop started_engine) 0%Z
  = [CloseContext 3%N].
Proof.
  apply (stop_ends_at_first_failure (stub ∅ close_context_fails)
           started_engine 0%Z 1%Z 3%N target_closed); by vm_compute.
Defined.

Lemma unloadable_script_touches_only_disk_witness :
  let env := stub ∅ never_fails in
  let self := BrowserEngine.init (VBool true) "chromium" in
  run env (BrowserEngine.run_test_file self "missing.yaml") 0%Z
  = (1%Z, inr (self, inl missing_file)) ∧
  Forall disk_event
    (trace env (BrowserEngine.run_test_file self "missing.yaml") 0%Z).
Proof.
  intros env self.
  apply (unloadable_script_touches_only_disk env self "missing.yaml" 0%Z 1%Z
           missing_file).
  by vm_compute.
Defined.

Lemma same_mode_reuses_session_witness :
  let env := stub scenario_D_files never_fails in
  run env (BrowserEngine.run_test_file started_engine "t1.yaml") 0%Z =
  (let '(w2, r) :=
     run env (BrowserEngine.execute_script started_engine scenario_A) 2%Z in
   (w2, inr (started_engine, r))) ∧
  trace env (BrowserEngine.run_test_file started_engine "t1.yaml") 0%Z =
  trace env (BrowserEngine.load_script "t1.yaml") 0%Z
  ++ trace env (BrowserEngine.execute_script started_engine scenario_A) 2%Z.
Proof.
  intros env.
  apply (same_mode_reuses_session env started_engine "t1.yaml" 0%Z 2%Z
           scenario_A 2%N); by vm_compute.
Defined.

Lemma batch_outcome_witness :
  length [scenario_D_failed; scenario_D_passed]
  = length ["missing.yaml"; "t1.yaml"].
Proof.
  apply (batch_outcome (stub scenario_D_files never_fails)
           ["missing.yaml"; "t1.yaml"]
           (BrowserEngine.init (VBool true) "chromium") scenario_D_engine
           0%Z 11%Z (inr [scenario_D_failed; scenario_D_passed])).
  by vm_compute.
Defined.

Lemma run_tests_exit_code_witness :
  let env := stub scenario_D_files never_fails in
  ∃ w0 engine0 w1 engine1 results,
    run env (BrowserEngine.start
               (BrowserEngine.init (VBool true) "chromium")) 0%Z
    = (w0, inr (engine0, inr ())) ∧
    run env (run_loop ["missing.yaml"; "t1.yaml"] engine0 []) w0
    = (w1, inr (engine1, inr results)) ∧
    1%Z = (if bool_decide
                (Forall (fun r => TestResult.passed r = true) results)
           then 0%Z else 1%Z).
Proof.
  intros env.
  apply (run_tests_exit_code env ["missing.yaml"; "t1.yaml"] true "chromium"
           0%Z 14%Z 1%Z).
  by vm_compute.
Defined.
